(** * Minesweeper game logic: a shallow embedding of [minesweeper.py]

    The development models the class [MinesweeperGame] (grid construction,
    bomb placement, hint computation, [_neighbour_cells] and [play]) and the
    terminal-state guard of [MinesweeperGameUI._update_game].

    Python values are modelled as follows.
    - integers are [Z];
    - a cell (a dict with keys ['coord'], ['hint'], ['bomb']) is a record;
    - the grid (a list of rows, each a list of cells) is a [list (list cell)]
      read and updated by index, with Python's rule for negative indices and
      [IndexError] outside of [-len, len);
    - [random.randint] reads its result from an explicit list of draws;
    - the [while] loops take fuel: the draws for the rejection sampling of
      the constructor, a natural number for the traversal of [play]. *)

From Stdlib Require Import ZArith Lia String Ascii.
From stdpp Require Import base tactics option list strings pretty.

Local Open Scope Z_scope.

(** ** Exceptions and outcomes *)

Inductive exn : Type := IndexError | ValueError | AssertionError.

Inductive outcome (A : Type) : Type :=
| Ok (a : A)
| Raise (e : exn)
| OutOfFuel.
Arguments Ok {A} a.
Arguments Raise {A} e.
Arguments OutOfFuel {A}.

#[global] Instance outcome_bind : MBind outcome := λ A B k m,
  match m with
  | Ok a => k a
  | Raise e => Raise e
  | OutOfFuel => OutOfFuel
  end.

(** ** Python lists *)

(** [l[i]]: indices in [0, len) count from the front, indices in [-len, 0)
    from the back, everything else raises [IndexError]. *)
Definition py_index (len : nat) (i : Z) : option nat :=
  if (0 <=? i) && (i <? Z.of_nat len) then Some (Z.to_nat i)
  else if (i <? 0) && (- Z.of_nat len <=? i) then Some (Z.to_nat (Z.of_nat len + i))
  else None.

Definition getitem {A : Type} (l : list A) (i : Z) : outcome A :=
  match py_index (length l) i with
  | Some k => match l !! k with Some a => Ok a | None => Raise IndexError end
  | None => Raise IndexError
  end.

(** [range(n)] *)
Definition range (n : Z) : list Z := Z.of_nat <$> seq 0 (Z.to_nat n).

(** [l.pop()]: removes and returns the last element. *)
Definition pop {A : Type} (l : list A) : option (A * list A) :=
  match rev l with
  | [] => None
  | a :: r => Some (a, rev r)
  end.

(** [random.randint(a, b)]: the value comes from the random source; an empty
    range raises [ValueError]. *)
Definition randint (a b : Z) (drawn : Z) : outcome Z :=
  if b <? a then Raise ValueError else Ok drawn.

(** ** Cells and the game object *)

Abbreviation coord := (Z * Z)%type.

Module CELL.

Record t : Type := Build {
  COORDINATES : coord;
  HINT : Z;          (* number of neighbour bombs *)
  IS_BOMB : bool
}.

(** [cell[CELL.IS_BOMB] = b] *)
Definition set_IS_BOMB (b : bool) (c : t) : t :=
  {| COORDINATES := COORDINATES c; HINT := HINT c; IS_BOMB := b |}.

(** [cell[CELL.HINT] += 1] *)
Definition incr_HINT (c : t) : t :=
  {| COORDINATES := COORDINATES c; HINT := HINT c + 1; IS_BOMB := IS_BOMB c |}.

End CELL.

Abbreviation grid_t := (list (list CELL.t)).

Record MinesweeperGame : Type := {
  width : Z;
  height : Z;
  _grid : grid_t;
  _known_cells_coordinates : list coord;
  _number_of_cells_to_uncover : Z;
  bombs : list coord
}.

(** [self._grid[y][x]] *)
Definition grid_cell (grid : grid_t) (x y : Z) : outcome CELL.t :=
  row ← getitem grid y; getitem row x.

Definition cell (self : MinesweeperGame) (x y : Z) : outcome CELL.t :=
  grid_cell (_grid self) x y.

(** In-place update [f] of the dict [self._grid[y][x]]. *)
Definition grid_update (grid : grid_t) (x y : Z) (f : CELL.t → CELL.t) : outcome grid_t :=
  match py_index (length grid) y with
  | None => Raise IndexError
  | Some j =>
    match grid !! j with
    | None => Raise IndexError
    | Some row =>
      match py_index (length row) x with
      | None => Raise IndexError
      | Some i =>
        match row !! i with
        | None => Raise IndexError
        | Some c => Ok (<[j := <[i := f c]> row]> grid)
        end
      end
    end
  end.

(** Coordinates visited by [_neighbour_cells(x, y)], in iteration order. *)
Definition neighbour_coordinates (w h x y : Z) : list coord :=
  u ← [-1; 0; 1];
  v ← [-1; 0; 1];
  if decide ((u, v) = (0, 0)) then []
  else
    let nx := x + u in
    let ny := y + v in
    if (0 <=? nx) && (nx <? w) && (0 <=? ny) && (ny <? h) then [(nx, ny)] else [].

Fixpoint cells_at (grid : grid_t) (cs : list coord) : outcome (list CELL.t) :=
  match cs with
  | [] => Ok []
  | (nx, ny) :: cs' =>
    c ← grid_cell grid nx ny;
    rest ← cells_at grid cs';
    Ok (c :: rest)
  end.

(** The cells yielded by the generator [self._neighbour_cells(x, y)]. *)
Definition _neighbour_cells (self : MinesweeperGame) (x y : Z) : outcome (list CELL.t) :=
  cells_at (_grid self) (neighbour_coordinates (width self) (height self) x y).

(** ** Construction *)

(** The grid built by the two nested [for] loops of [__init__]. *)
Definition make_grid (grid_width grid_height : Z) : grid_t :=
  (fun y => (fun x => CELL.Build (x, y) 0 false) <$> range grid_width) <$> range grid_height.

(** The [while len(self.bombs) < number_of_bombs] loop; one pair of draws is
    consumed by each iteration. *)
Fixpoint place_bombs (grid_width grid_height number_of_bombs : Z)
    (draws : list (Z * Z)) (grid : grid_t) (bombs : list coord) {struct draws}
    : outcome (grid_t * list coord) :=
  if negb (Z.of_nat (length bombs) <? number_of_bombs) then Ok (grid, bombs)
  else
    match draws with
    | [] =>
      _ ← randint 0 (grid_width - 1) 0;
      _ ← randint 0 (grid_height - 1) 0;
      OutOfFuel
    | (dx, dy) :: draws' =>
      x ← randint 0 (grid_width - 1) dx;
      y ← randint 0 (grid_height - 1) dy;
      c ← grid_cell grid x y;
      if CELL.IS_BOMB c then
        place_bombs grid_width grid_height number_of_bombs draws' grid bombs
      else
        grid' ← grid_update grid x y (CELL.set_IS_BOMB true);
        place_bombs grid_width grid_height number_of_bombs draws' grid' (bombs ++ [(x, y)])
    end.

(** [for cell in self._neighbour_cells(x, y): cell[CELL.HINT] += 1].  The
    generator yields the dicts stored in the grid, so the increment updates
    the grid in place at each neighbour coordinate, one after the other. *)
Fixpoint incr_hints (grid : grid_t) (cs : list coord) : outcome grid_t :=
  match cs with
  | [] => Ok grid
  | (nx, ny) :: cs' =>
    grid' ← grid_update grid nx ny CELL.incr_HINT;
    incr_hints grid' cs'
  end.

(** [for x, y in self.bombs: ...] *)
Fixpoint set_hints (w h : Z) (grid : grid_t) (bombs : list coord) : outcome grid_t :=
  match bombs with
  | [] => Ok grid
  | (x, y) :: bombs' =>
    grid' ← incr_hints grid (neighbour_coordinates w h x y);
    set_hints w h grid' bombs'
  end.

(** [MinesweeperGame.__init__] *)
Definition init (grid_width grid_height number_of_bombs : Z) (draws : list (Z * Z))
    : outcome MinesweeperGame :=
  let number_of_cells_to_uncover := grid_width * grid_height - number_of_bombs in
  if negb (0 <? number_of_cells_to_uncover) then Raise AssertionError
  else
    let grid := make_grid grid_width grid_height in
    '(grid, bombs) ← place_bombs grid_width grid_height number_of_bombs draws grid [];
    grid ← set_hints grid_width grid_height grid bombs;
    Ok {| width := grid_width;
          height := grid_height;
          _grid := grid;
          _known_cells_coordinates := [];
          _number_of_cells_to_uncover := number_of_cells_to_uncover;
          bombs := bombs |}.

(** ** Playing *)

(** The three kinds of value returned by [play]: [False] (a bomb was
    clicked), [True] (game won), or the list of new hints. *)
Inductive play_result : Type :=
| Lost
| Won
| Hints (hints : list (coord * Z)).

(** The [while cells_to_check] loop of [play].  Returns the outcome together
    with the final value of [self._known_cells_coordinates].  The stack
    holds the dicts of the grid; [play] reads them and never writes to
    them, so their values stand for the references. *)
Fixpoint play_loop (fuel : nat) (self : MinesweeperGame)
    (cells_to_check : list CELL.t) (hints : list (coord * Z)) (known : list coord)
    : outcome (list (coord * Z)) * list coord :=
  match fuel with
  | O => (OutOfFuel, known)
  | S fuel' =>
    match pop cells_to_check with
    | None => (Ok hints, known)
    | Some (c, cells_to_check) =>
      let coordinates := CELL.COORDINATES c in
      if decide (coordinates ∈ known) then
        play_loop fuel' self cells_to_check hints known
      else
        let hints := hints ++ [(coordinates, CELL.HINT c)] in
        let known := known ++ [coordinates] in
        if CELL.HINT c =? 0 then
          match _neighbour_cells self coordinates.1 coordinates.2 with
          | Ok ns => play_loop fuel' self (cells_to_check ++ ns) hints known
          | Raise e => (Raise e, known)
          | OutOfFuel => (OutOfFuel, known)
          end
        else play_loop fuel' self cells_to_check hints known
    end
  end.

Definition set_known (self : MinesweeperGame) (known : list coord) : MinesweeperGame :=
  {| width := width self;
     height := height self;
     _grid := _grid self;
     _known_cells_coordinates := known;
     _number_of_cells_to_uncover := _number_of_cells_to_uncover self;
     bombs := bombs self |}.

(** [MinesweeperGame.play]: the outcome and the game object after the call. *)
Definition play (fuel : nat) (self : MinesweeperGame) (x y : Z)
    : outcome play_result * MinesweeperGame :=
  match cell self x y with
  | Raise e => (Raise e, self)
  | OutOfFuel => (OutOfFuel, self)
  | Ok c =>
    if CELL.IS_BOMB c then (Ok Lost, self)
    else
      let '(r, known) := play_loop fuel self [c] [] (_known_cells_coordinates self) in
      let self' := set_known self known in
      match r with
      | Raise e => (Raise e, self')
      | OutOfFuel => (OutOfFuel, self')
      | Ok hints =>
        let known_cells_count := Z.of_nat (length known) in
        if known_cells_count =? _number_of_cells_to_uncover self then (Ok Won, self')
        else (Ok (Hints hints), self')
      end
  end.

(** ** The terminal-state guard of the user interface

    Of [MinesweeperGameUI] only the game object and the [game_over] flag are
    modelled; the widget calls of [_update_game] (labels, colours, the win
    panel) and the button stored in each cell change neither, and
    [_update_game] returns [None] on every path. *)
Record MinesweeperGameUI : Type := {
  game : MinesweeperGame;
  game_over : bool
}.

Definition _update_game (fuel : nat) (ui : MinesweeperGameUI) (x y : Z)
    : outcome unit * MinesweeperGameUI :=
  if game_over ui then (Ok tt, ui)
  else
    let '(r, g) := play fuel (game ui) x y in
    match r with
    | Ok Won => (Ok tt, {| game := g; game_over := true |})
    | Ok Lost => (Ok tt, {| game := g; game_over := true |})
    | Ok (Hints _) => (Ok tt, {| game := g; game_over := false |})
    | Raise e => (Raise e, {| game := g; game_over := false |})
    | OutOfFuel => (OutOfFuel, {| game := g; game_over := false |})
    end.

(** ** Boards: coordinates, adjacency, invariants *)

Definition in_bounds (w h : Z) (c : coord) : Prop :=
  (0 ≤ c.1 < w) ∧ (0 ≤ c.2 < h).

(** All coordinates of a [w] by [h] grid, row by row. *)
Definition all_coordinates (w h : Z) : list coord :=
  y ← range h; x ← range w; [(x, y)].

(** Two distinct cells that touch by a side or a corner. *)
Definition adjacent (a b : coord) : Prop :=
  a ≠ b ∧ Z.abs (a.1 - b.1) ≤ 1 ∧ Z.abs (a.2 - b.2) ≤ 1.

(** A grid of [h] rows of [w] cells each. *)
Definition grid_shape (w h : Z) (grid : grid_t) : Prop :=
  length grid = Z.to_nat h ∧ Forall (λ row, length row = Z.to_nat w) grid.

(** What the constructor has established once the cells of [bombs] are
    flagged: every cell sits at its coordinates, all hints are still 0, the
    flagged cells are those of [bombs], each listed once. *)
Definition placed (w h : Z) (grid : grid_t) (bombs : list coord) : Prop :=
  grid_shape w h grid ∧
  (∀ x y, in_bounds w h (x, y) →
     ∃ c, grid_cell grid x y = Ok c ∧ CELL.COORDINATES c = (x, y) ∧
          CELL.HINT c = 0 ∧ (CELL.IS_BOMB c = true ↔ (x, y) ∈ bombs)) ∧
  NoDup bombs ∧
  Forall (in_bounds w h) bombs.

Definition coordinates_at (g : MinesweeperGame) (c : coord) : option coord :=
  match cell g c.1 c.2 with Ok k => Some (CELL.COORDINATES k) | _ => None end.

Definition hint_at (g : MinesweeperGame) (c : coord) : Z :=
  match cell g c.1 c.2 with Ok k => CELL.HINT k | _ => 0 end.

Definition is_bomb_at (g : MinesweeperGame) (c : coord) : bool :=
  match cell g c.1 c.2 with Ok k => CELL.IS_BOMB k | _ => false end.

(** The number of cells of the board adjacent to [c] that hold a bomb. *)
Definition neighbour_bombs (g : MinesweeperGame) (c : coord) : Z :=
  Z.of_nat (length (filter (λ d, adjacent c d ∧ is_bomb_at g d = true)
                           (all_coordinates (width g) (height g)))).

(** The grid is a [height] by [width] rectangle and the cell stored at
    [(x, y)] carries the coordinates [(x, y)]. *)
Definition grid_ok (g : MinesweeperGame) : Prop :=
  0 < width g ∧ 0 < height g ∧
  length (_grid g) = Z.to_nat (height g) ∧
  Forall (λ row, length row = Z.to_nat (width g)) (_grid g) ∧
  Forall (λ c, coordinates_at g c = Some c) (all_coordinates (width g) (height g)).

Definition hints_ok (g : MinesweeperGame) : Prop :=
  Forall (λ c, hint_at g c = neighbour_bombs g c) (all_coordinates (width g) (height g)).

(** [bombs] lists the cells flagged as bombs, once each, and the number of
    cells to uncover is the number of the other cells. *)
Definition bombs_ok (g : MinesweeperGame) : Prop :=
  NoDup (bombs g) ∧
  Forall (in_bounds (width g) (height g)) (bombs g) ∧
  Forall (λ c, is_bomb_at g c = true ↔ c ∈ bombs g) (all_coordinates (width g) (height g)) ∧
  _number_of_cells_to_uncover g = width g * height g - Z.of_nat (length (bombs g)).

(** The known cells are distinct safe cells of the board, and every
    neighbour of a known cell with hint 0 is known too. *)
Definition known_ok (g : MinesweeperGame) : Prop :=
  NoDup (_known_cells_coordinates g) ∧
  Forall (λ c, in_bounds (width g) (height g) c ∧ is_bomb_at g c = false)
         (_known_cells_coordinates g) ∧
  Forall (λ c, hint_at g c = 0 →
               Forall (λ n, n ∈ _known_cells_coordinates g)
                      (neighbour_coordinates (width g) (height g) c.1 c.2))
         (_known_cells_coordinates g).

Definition board_ok (g : MinesweeperGame) : Prop :=
  grid_ok g ∧ hints_ok g ∧ bombs_ok g ∧ known_ok g.

#[global] Instance in_bounds_dec w h c : Decision (in_bounds w h c).
Proof. unfold in_bounds. apply _. Defined.

#[global] Instance adjacent_dec a b : Decision (adjacent a b).
Proof. unfold adjacent. apply _. Defined.

#[global] Instance board_ok_dec g : Decision (board_ok g).
Proof. unfold board_ok, grid_ok, hints_ok, bombs_ok, known_ok. apply _. Defined.

(** [k] is the cell that the grid stores at the coordinates [k] carries. *)
Definition cell_of (g : MinesweeperGame) (k : CELL.t) : Prop :=
  in_bounds (width g) (height g) (CELL.COORDINATES k) ∧
  cell g (CELL.COORDINATES k).1 (CELL.COORDINATES k).2 = Ok k.

(** The entry that [play] records for a cell. *)
Definition hint_entry (k : CELL.t) : coord * Z := (CELL.COORDINATES k, CELL.HINT k).

(** Number of cells of the board that are not in [known]. *)
Definition unknown_count (g : MinesweeperGame) (known : list coord) : nat :=
  length (filter (λ c, c ∉ known) (all_coordinates (width g) (height g))).

(** Fuel that is enough for any call of [play] on the board [g]: every
    cell is pushed at most eight times after the start cell. *)
Definition play_fuel (g : MinesweeperGame) : nat :=
  8 * length (all_coordinates (width g) (height g)) + 2.

(** The game is won when every safe cell is known. *)
Definition is_won (g : MinesweeperGame) : Prop :=
  Z.of_nat (length (_known_cells_coordinates g)) = _number_of_cells_to_uncover g.

(** ** The flood set of a cell

    The connected zero-hint region of a start cell, its frontier of cells
    with a positive hint, and their union with the start cell. *)
Inductive zero_region (g : MinesweeperGame) (s : coord) : coord → Prop :=
| zero_region_start :
    hint_at g s = 0 → zero_region g s s
| zero_region_step c n :
    zero_region g s c →
    in_bounds (width g) (height g) n → adjacent c n → hint_at g n = 0 →
    zero_region g s n.

Definition frontier (g : MinesweeperGame) (s n : coord) : Prop :=
  ∃ c, zero_region g s c ∧
       in_bounds (width g) (height g) n ∧ adjacent c n ∧ 0 < hint_at g n.

Definition flood_set (g : MinesweeperGame) (s c : coord) : Prop :=
  c = s ∨ zero_region g s c ∨ frontier g s c.

(** The known cells are cells of the board, each listed once. *)
Definition known_on_board (g : MinesweeperGame) : Prop :=
  NoDup (_known_cells_coordinates g) ∧
  Forall (in_bounds (width g) (height g)) (_known_cells_coordinates g).

#[global] Instance grid_ok_dec g : Decision (grid_ok g).
Proof. unfold grid_ok. apply _. Defined.

#[global] Instance known_on_board_dec g : Decision (known_on_board g).
Proof. unfold known_on_board. apply _. Defined.

(** ** Printing the board *)

(** [str(n)] for an integer [n]: its decimal digits, after a minus sign for
    a negative number. *)
Definition str (n : Z) : string := pretty n.

(** The newline character. *)
Definition newline : ascii := ascii_of_nat 10.

(** What [__repr__] prints for one cell: ['X'] for a bomb, otherwise
    [str(cell[CELL.HINT] or '-')]. *)
Definition repr_cell (c : CELL.t) : string :=
  if CELL.IS_BOMB c then "X"
  else if CELL.HINT c =? 0 then "-" else str (CELL.HINT c).

(** [MinesweeperGame.__repr__]: the cells of a line joined by spaces, the
    lines joined by newlines. *)
Definition __repr__ (self : MinesweeperGame) : string :=
  String.concat (String newline "")
    ((λ line, String.concat " " (repr_cell <$> line)) <$> _grid self).

(** ** The buttons of the user interface

    A Python string is modelled by the list of its code points.  A button
    is modelled by what the code sets or reads of it: its text, whether it
    is down, its style sheet, and whether a click on it has been connected
    to [sys.exit].  The code keeps the button of a cell in the dict of the
    cell, under the key ['button']; the model keeps the buttons in a grid of
    their own, indexed like the grid of the cells.  The fields record the
    calls that [_set_flag] and [_update_game] make; what Qt does to a button
    on its own when the mouse is pressed or released, the handler
    [released.connect(partial(button.setDown, True))] included, is not
    modelled.  [_show_win_pannel] is taken to return, as it does when the
    file is run as a program and [sys] is imported. *)

Abbreviation pystr := (list Z).

(** [c.isspace()] for one character: the white space of Unicode. *)
Definition isspace (c : Z) : bool :=
  ((9 <=? c) && (c <=? 13)) || ((28 <=? c) && (c <=? 32)) ||
  (c =? 133) || (c =? 160) || (c =? 5760) ||
  ((8192 <=? c) && (c <=? 8202)) ||
  (c =? 8232) || (c =? 8233) || (c =? 8239) || (c =? 8287) || (c =? 12288).

Fixpoint lstrip (t : pystr) : pystr :=
  match t with
  | [] => []
  | c :: t' => if isspace c then lstrip t' else t
  end.

(** [t.strip()] *)
Definition strip (t : pystr) : pystr := rev (lstrip (rev (lstrip t))).

(** The code points of a string of ASCII characters. *)
Definition pystr_of_string (s : string) : pystr :=
  (λ a, Z.of_nat (nat_of_ascii a)) <$> list_ascii_of_string s.

(** [u'\u2691'], the flag, and [u'\U0001F4A3'], the bomb. *)
Definition flag_text : pystr := [9873].
Definition bomb_text : pystr := [128163].

(** [str(hint) if hint else ' '] *)
Definition label (hint : Z) : pystr :=
  if hint =? 0 then [32] else pystr_of_string (str hint).

Record Button : Type := {
  text : pystr;
  down : bool;
  styleSheet : string;
  clicked_exits : bool
}.

(** [Button(' ', maximumWidth=24)] *)
Definition new_button : Button :=
  {| text := [32]; down := false; styleSheet := ""; clicked_exits := false |}.

Definition setText (t : pystr) (b : Button) : Button :=
  {| text := t; down := down b; styleSheet := styleSheet b;
     clicked_exits := clicked_exits b |}.

Definition setDown (d : bool) (b : Button) : Button :=
  {| text := text b; down := d; styleSheet := styleSheet b;
     clicked_exits := clicked_exits b |}.

Definition setStyleSheet (s : string) (b : Button) : Button :=
  {| text := text b; down := down b; styleSheet := s;
     clicked_exits := clicked_exits b |}.

(** [button.clicked.connect(sys.exit)] *)
Definition connect_exit (b : Button) : Button :=
  {| text := text b; down := down b; styleSheet := styleSheet b;
     clicked_exits := true |}.

Abbreviation buttons_t := (list (list Button)).

(** [self.cell(x, y)[CELL.BUTTON]] *)
Definition button_at (buttons : buttons_t) (x y : Z) : outcome Button :=
  row ← getitem buttons y; getitem row x.

(** A call [f] of a method of [self.cell(x, y)[CELL.BUTTON]]. *)
Definition button_update (buttons : buttons_t) (x y : Z) (f : Button → Button)
    : outcome buttons_t :=
  match py_index (length buttons) y with
  | None => Raise IndexError
  | Some j =>
    match buttons !! j with
    | None => Raise IndexError
    | Some row =>
      match py_index (length row) x with
      | None => Raise IndexError
      | Some i =>
        match row !! i with
        | None => Raise IndexError
        | Some b => Ok (<[j := <[i := f b]> row]> buttons)
        end
      end
    end
  end.

(** The window: the game with its [game_over] flag, the buttons, and
    whether [_show_win_pannel] has replaced the board by the button
    ['you won !']. *)
Record Window : Type := {
  ui : MinesweeperGameUI;
  buttons : buttons_t;
  win_pannel : bool
}.

(** The buttons made by the loops of [MinesweeperGameUI.__init__], one for
    each cell. *)
Definition make_buttons (width height : Z) : buttons_t :=
  (λ _, (λ _, new_button) <$> range width) <$> range height.

(** [MinesweeperGameUI.__init__] *)
Definition ui_init (width height mines : Z) (draws : list (Z * Z)) : outcome Window :=
  g ← init width height mines draws;
  Ok {| ui := {| game := g; game_over := false |};
        buttons := make_buttons width height;
        win_pannel := false |}.

(** [MinesweeperGameUI._set_flag] *)
Definition _set_flag (w : Window) (x y : Z) : outcome unit * Window :=
  match button_at (buttons w) x y with
  | Raise e => (Raise e, w)
  | OutOfFuel => (OutOfFuel, w)
  | Ok button =>
    let current_text := strip (text button) in
    if decide (current_text = flag_text) then
      match button_update (buttons w) x y (setText []) with
      | Ok bs => (Ok tt, {| ui := ui w; buttons := bs; win_pannel := win_pannel w |})
      | Raise e => (Raise e, w)
      | OutOfFuel => (OutOfFuel, w)
      end
    else if decide (current_text = []) then
      match button_update (buttons w) x y (setText flag_text) with
      | Ok bs => (Ok tt, {| ui := ui w; buttons := bs; win_pannel := win_pannel w |})
      | Raise e => (Raise e, w)
      | OutOfFuel => (OutOfFuel, w)
      end
    else (Ok tt, w)
  end.

(** [for x, y in self.bombs: self.cell(x, y)[CELL.BUTTON].setText(...)] *)
Fixpoint show_bombs (bs : buttons_t) (bombs : list coord) : outcome buttons_t * buttons_t :=
  match bombs with
  | [] => (Ok bs, bs)
  | (x, y) :: bombs' =>
    match button_update bs x y (setText bomb_text) with
    | Ok bs' => show_bombs bs' bombs'
    | Raise e => (Raise e, bs)
    | OutOfFuel => (OutOfFuel, bs)
    end
  end.

(** [for (x, y), hint in hints: button.setText(label); button.setDown(True)] *)
Fixpoint show_hints (bs : buttons_t) (hints : list (coord * Z)) : outcome buttons_t * buttons_t :=
  match hints with
  | [] => (Ok bs, bs)
  | ((x, y), hint) :: hints' =>
    match button_update bs x y (λ b, setDown true (setText (label hint) b)) with
    | Ok bs' => show_hints bs' hints'
    | Raise e => (Raise e, bs)
    | OutOfFuel => (OutOfFuel, bs)
    end
  end.

(** [for line in self._grid: for cell in line:
    cell[CELL.BUTTON].clicked.connect(sys.exit)] *)
Definition connect_exit_all (bs : buttons_t) : buttons_t :=
  (λ line : list Button, connect_exit <$> line) <$> bs.

Definition with_buttons (r : outcome buttons_t * buttons_t) (u : MinesweeperGameUI)
    (p : bool) : outcome unit * Window :=
  (match r.1 with Ok _ => Ok tt | Raise e => Raise e | OutOfFuel => OutOfFuel end,
   {| ui := u; buttons := r.2; win_pannel := p |}).

(** [MinesweeperGameUI._update_game] with what it does to the buttons. *)
Definition _update_game_buttons (fuel : nat) (w : Window) (x y : Z)
    : outcome unit * Window :=
  if game_over (ui w) then (Ok tt, w)
  else
    let '(r, g) := play fuel (game (ui w)) x y in
    match r with
    | Ok Won =>
      (Ok tt, {| ui := {| game := g; game_over := true |};
                 buttons := buttons w; win_pannel := true |})
    | Ok Lost =>
      let u := {| game := g; game_over := true |} in
      match button_update (buttons w) x y (setStyleSheet "background-color:red") with
      | Raise e => (Raise e, {| ui := u; buttons := buttons w; win_pannel := win_pannel w |})
      | OutOfFuel => (OutOfFuel, {| ui := u; buttons := buttons w; win_pannel := win_pannel w |})
      | Ok bs =>
        let r' := show_bombs bs (bombs g) in
        match r'.1 with
        | Ok bs' =>
          (Ok tt, {| ui := u; buttons := connect_exit_all bs';
                     win_pannel := win_pannel w |})
        | _ => with_buttons r' u (win_pannel w)
        end
      end
    | Ok (Hints hints) =>
      with_buttons (show_hints (buttons w) hints) {| game := g; game_over := false |}
                   (win_pannel w)
    | Raise e =>
      (Raise e, {| ui := {| game := g; game_over := false |};
                   buttons := buttons w; win_pannel := win_pannel w |})
    | OutOfFuel =>
      (OutOfFuel, {| ui := {| game := g; game_over := false |};
                     buttons := buttons w; win_pannel := win_pannel w |})
    end.

(** A grid of [h] rows of [w] buttons each. *)
Definition buttons_shape (w h : Z) (bs : buttons_t) : Prop :=
  length bs = Z.to_nat h ∧ Forall (λ row, length row = Z.to_nat w) bs.

(** The buttons form a grid of the shape of the board. *)
Definition buttons_ok (w : Window) : Prop :=
  buttons_shape (width (game (ui w))) (height (game (ui w))) (buttons w).

#[global] Instance buttons_ok_dec w : Decision (buttons_ok w).
Proof. unfold buttons_ok, buttons_shape. apply _. Defined.

(** ** Sequences of calls *)

(** The game object after a sequence of calls of [play]. *)
Definition play_all (fuel : nat) (g : MinesweeperGame) (moves : list coord)
    : MinesweeperGame :=
  foldl (λ g m, (play fuel g m.1 m.2).2) g moves.

(** The user interface after a sequence of clicks. *)
Definition update_all (fuel : nat) (ui : MinesweeperGameUI) (clicks : list coord)
    : MinesweeperGameUI :=
  foldl (λ ui m, (_update_game fuel ui m.1 m.2).2) ui clicks.

(** ** Examples *)

Definition no_game : MinesweeperGame :=
  {| width := 0; height := 0; _grid := []; _known_cells_coordinates := [];
     _number_of_cells_to_uncover := 0; bombs := [] |}.

Definition the_game (o : outcome MinesweeperGame) : MinesweeperGame :=
  match o with Ok g => g | _ => no_game end.

(** One column, two rows, the bomb below. *)
Definition game_1x2 : MinesweeperGame :=
  Eval vm_compute in the_game (init 1 2 1 [(0, 1)]).

(** Two columns, one row, the bomb on the left. *)
Definition game_2x1 : MinesweeperGame :=
  Eval vm_compute in the_game (init 2 1 1 [(0, 0)]).

(** Three by three, one bomb in the corner [(2, 2)]. *)
Definition game_3x3 : MinesweeperGame :=
  Eval vm_compute in the_game (init 3 3 1 [(2, 2)]).

(** Four columns, one row, a bomb at each end. *)
Definition game_4x1 : MinesweeperGame :=
  Eval vm_compute in the_game (init 4 1 2 [(0, 0); (3, 0)]).

(** Four by four, bombs in the two lower corners; the second draw repeats
    the first and is rejected. *)
Definition game_4x4 : MinesweeperGame :=
  Eval vm_compute in the_game (init 4 4 2 [(3, 3); (3, 3); (0, 3)]).


(** The window that [MinesweeperGameUI(4, 4, 2)] opens on that board. *)
Definition window_4x4 : Window :=
  {| ui := {| game := game_4x4; game_over := false |};
     buttons := make_buttons 4 4; win_pannel := false |}.

(** That window after a left click on the cell [(1, 2)], which has one
    bomb next to it. *)
Definition window_4x4_hint : Window :=
  Eval vm_compute in (_update_game_buttons 200 window_4x4 1 2).2.
(** ** The example boards *)

Example game_1x2_init : init 1 2 1 [(0, 1)] = Ok game_1x2.
Proof. reflexivity. Qed.

Example game_2x1_init : init 2 1 1 [(0, 0)] = Ok game_2x1.
Proof. reflexivity. Qed.

Example game_3x3_init : init 3 3 1 [(2, 2)] = Ok game_3x3.
Proof. reflexivity. Qed.

Example game_4x1_init : init 4 1 2 [(0, 0); (3, 0)] = Ok game_4x1.
Proof. reflexivity. Qed.

Example game_4x4_init : init 4 4 2 [(3, 3); (3, 3); (0, 3)] = Ok game_4x4.
Proof. reflexivity. Qed.

(** Win and loss on the one by two board. *)
Example game_1x2_win : (play 10 game_1x2 0 0).1 = Ok Won.
Proof. reflexivity. Qed.

Example game_1x2_loss : (play 10 game_1x2 0 1).1 = Ok Lost.
Proof. reflexivity. Qed.

(** On the four by four board a click in the upper left corner uncovers
    the two upper rows and the row of ones below them. *)
Example game_4x4_play :
  (play 200 game_4x4 0 0).1 =
  Ok (Hints [((0, 0), 0); ((1, 1), 0); ((2, 2), 1); ((2, 1), 0); ((3, 2), 1);
             ((3, 1), 0); ((3, 0), 0); ((2, 0), 0); ((1, 0), 0); ((0, 1), 0);
             ((1, 2), 1); ((0, 2), 1)]).
Proof. vm_compute. reflexivity. Qed.

(** ** Python lists: basic facts *)

Lemma py_index_front (len : nat) (i : Z) :
  0 ≤ i < Z.of_nat len → py_index len i = Some (Z.to_nat i).
Proof.
  intros Hi. unfold py_index.
  destruct (Z.leb_spec 0 i), (Z.ltb_spec i (Z.of_nat len)); simpl; try lia; done.
Qed.

Lemma py_index_outside (len : nat) (i : Z) :
  i < - Z.of_nat len ∨ Z.of_nat len ≤ i → py_index len i = None.
Proof.
  intros Hi. unfold py_index.
  destruct (Z.leb_spec 0 i), (Z.ltb_spec i (Z.of_nat len)),
    (Z.ltb_spec i 0), (Z.leb_spec (- Z.of_nat len) i); simpl; try lia; done.
Qed.

Lemma py_index_lt (len : nat) (i : Z) (k : nat) :
  py_index len i = Some k → (k < len)%nat.
Proof.
  unfold py_index.
  destruct (Z.leb_spec 0 i), (Z.ltb_spec i (Z.of_nat len)),
    (Z.ltb_spec i 0), (Z.leb_spec (- Z.of_nat len) i); simpl;
    intros [= <-]; lia.
Qed.

Lemma elem_of_range (n x : Z) : x ∈ range n ↔ 0 ≤ x < n.
Proof.
  unfold range. rewrite list_elem_of_fmap. split.
  - intros (k & -> & Hk). apply elem_of_seq in Hk. lia.
  - intros Hx. exists (Z.to_nat x). split; [lia|]. apply elem_of_seq. lia.
Qed.

Lemma length_range (n : Z) : length (range n) = Z.to_nat n.
Proof. unfold range. by rewrite length_fmap, length_seq. Qed.

Lemma lookup_range (n : Z) (k : nat) :
  (k < Z.to_nat n)%nat → range n !! k = Some (Z.of_nat k).
Proof.
  intros Hk. unfold range. rewrite list_lookup_fmap, lookup_seq_lt by done. done.
Qed.

Lemma NoDup_range (n : Z) : NoDup (range n).
Proof.
  unfold range. apply NoDup_fmap_2; [|apply NoDup_seq].
  intros a b. lia.
Qed.

Lemma pop_None {A : Type} (l : list A) : pop l = None → l = [].
Proof.
  unfold pop. destruct (rev l) eqn:E; [|done].
  intros _. apply (f_equal (@rev A)) in E. by rewrite rev_involutive in E.
Qed.

Lemma pop_Some {A : Type} (l r : list A) (a : A) :
  pop l = Some (a, r) → l = r ++ [a].
Proof.
  unfold pop. destruct (rev l) as [|b t] eqn:E; [done|].
  intros [= -> <-]. apply (f_equal (@rev A)) in E.
  rewrite rev_involutive in E. by rewrite E.
Qed.

(** ** Coordinates *)

Lemma elem_of_all_coordinates (w h : Z) (c : coord) :
  c ∈ all_coordinates w h ↔ in_bounds w h c.
Proof.
  unfold all_coordinates, in_bounds. rewrite list_elem_of_bind. split.
  - intros (y & Hc & Hy). apply list_elem_of_bind in Hc as (x & Hc & Hx).
    apply list_elem_of_singleton in Hc as ->.
    apply elem_of_range in Hx, Hy. done.
  - destruct c as [x y]. simpl. intros [Hx Hy]. exists y. split.
    + apply list_elem_of_bind. exists x. split; [by apply list_elem_of_singleton|].
      by apply elem_of_range.
    + by apply elem_of_range.
Qed.

Lemma NoDup_all_coordinates (w h : Z) : NoDup (all_coordinates w h).
Proof.
  unfold all_coordinates. apply NoDup_bind; [| |apply NoDup_range].
  - intros y1 y2 c _ _ H1 H2.
    apply list_elem_of_bind in H1 as (x1 & H1 & _).
    apply list_elem_of_bind in H2 as (x2 & H2 & _).
    apply list_elem_of_singleton in H1, H2. congruence.
  - intros y _. apply NoDup_bind; [| |apply NoDup_range].
    + intros x1 x2 c _ _ H1 H2. apply list_elem_of_singleton in H1, H2. congruence.
    + intros x _. apply NoDup_singleton.
Qed.

Lemma length_all_coordinates (w h : Z) :
  0 ≤ w → 0 ≤ h → Z.of_nat (length (all_coordinates w h)) = w * h.
Proof.
  intros Hw Hh. unfold all_coordinates.
  assert (Hrow : ∀ y : Z, length (x ← range w; [(x, y)]) = Z.to_nat w).
  { intros y. rewrite <- (length_range w). induction (range w); simpl; auto. }
  assert (Hall : ∀ l : list Z,
    length (y ← l; x ← range w; [(x, y)]) = (length l * Z.to_nat w)%nat).
  { induction l as [|y l IH]; [done|].
    cbn [mbind list_bind]. rewrite length_app, IH.
    change (length (mbind (λ x, [(x, y)]) (range w)) + length l * Z.to_nat w
            = S (length l) * Z.to_nat w)%nat.
    rewrite Hrow. simpl. lia. }
  rewrite Hall, length_range. lia.
Qed.

Lemma in_bounds_test (w h a b : Z) :
  (if (0 <=? a) && (a <? w) && (0 <=? b) && (b <? h) then [(a, b)] else [])
  = filter (in_bounds w h) [(a, b)].
Proof.
  rewrite filter_cons, filter_nil. unfold in_bounds.
  destruct (decide _) as [H|H]; simpl in H;
    destruct (Z.leb_spec 0 a), (Z.ltb_spec a w),
      (Z.leb_spec 0 b), (Z.ltb_spec b h); simpl; try done; lia.
Qed.

Lemma neighbour_coordinates_unfold (w h x y : Z) :
  neighbour_coordinates w h x y =
  filter (in_bounds w h)
    [(x + -1, y + -1); (x + -1, y + 0); (x + -1, y + 1);
     (x + 0, y + -1); (x + 0, y + 1);
     (x + 1, y + -1); (x + 1, y + 0); (x + 1, y + 1)].
Proof.
  unfold neighbour_coordinates. cbn [mbind list_bind app].
  repeat case_decide; try done.
  rewrite !in_bounds_test, !app_nil_r. simpl app. rewrite <- !filter_app. done.
Qed.

Lemma elem_of_neighbour_coordinates (w h x y : Z) (n : coord) :
  n ∈ neighbour_coordinates w h x y ↔ in_bounds w h n ∧ adjacent (x, y) n.
Proof.
  rewrite neighbour_coordinates_unfold, list_elem_of_filter.
  unfold adjacent. destruct n as [a b]. simpl.
  rewrite !elem_of_cons, elem_of_nil. split.
  - intros [Hb Hn]. split; [done|].
    destruct_or!; try done; injection Hn as -> ->;
      (split; [intros [=]; lia|lia]).
  - intros [Hb (Hne & Hx & Hy)]. split; [done|].
    assert (a = x + -1 ∨ a = x + 0 ∨ a = x + 1) as Ha by lia.
    assert (b = y + -1 ∨ b = y + 0 ∨ b = y + 1) as Hb' by lia.
    destruct Ha as [-> | [-> | ->]], Hb' as [-> | [-> | ->]]; auto 10.
    exfalso. apply Hne. f_equal; lia.
Qed.

Lemma NoDup_neighbour_coordinates (w h x y : Z) :
  NoDup (neighbour_coordinates w h x y).
Proof.
  rewrite neighbour_coordinates_unfold. apply NoDup_filter.
  repeat (apply NoDup_cons; split;
          [rewrite ?elem_of_cons, elem_of_nil; intros ?; destruct_or!; try done; simplify_eq; lia|]).
  apply NoDup_nil_2.
Qed.

Lemma length_neighbour_coordinates (w h x y : Z) :
  (length (neighbour_coordinates w h x y) ≤ 8)%nat.
Proof.
  rewrite neighbour_coordinates_unfold.
  etrans; [apply length_filter|]. done.
Qed.

Lemma adjacent_sym (a b : coord) : adjacent a b → adjacent b a.
Proof. unfold adjacent. intros (? & ? & ?). split; [done|lia]. Qed.

(** ** Grids *)

Lemma grid_cell_lookup (w h : Z) (grid : grid_t) (x y : Z) :
  grid_shape w h grid → in_bounds w h (x, y) →
  ∃ row c, grid !! Z.to_nat y = Some row ∧ row !! Z.to_nat x = Some c ∧
           length row = Z.to_nat w ∧ grid_cell grid x y = Ok c.
Proof.
  intros [Hlen Hrows] [Hx Hy]. simpl in Hx, Hy.
  destruct (lookup_lt_is_Some_2 grid (Z.to_nat y)) as [row Hrow]; [lia|].
  assert (length row = Z.to_nat w) as Hw.
  { rewrite Forall_forall in Hrows. apply Hrows. by eapply list_elem_of_lookup_2. }
  destruct (lookup_lt_is_Some_2 row (Z.to_nat x)) as [c Hc]; [lia|].
  exists row, c. repeat split; try done.
  unfold grid_cell, getitem.
  rewrite py_index_front by lia. rewrite Hrow. cbn.
  rewrite py_index_front by lia. by rewrite Hc.
Qed.

Lemma grid_update_spec (w h : Z) (grid : grid_t) (x y : Z) (f : CELL.t → CELL.t) (c : CELL.t) :
  grid_shape w h grid → in_bounds w h (x, y) → grid_cell grid x y = Ok c →
  ∃ grid', grid_update grid x y f = Ok grid' ∧ grid_shape w h grid' ∧
    ∀ x' y', in_bounds w h (x', y') →
      grid_cell grid' x' y' =
        if decide ((x', y') = (x, y)) then Ok (f c) else grid_cell grid x' y'.
Proof.
  intros Hshape Hin Hcell.
  destruct (grid_cell_lookup w h grid x y Hshape Hin) as (row & c' & Hrow & Hc & Hw & Hcell').
  assert (c' = c) as -> by congruence.
  destruct Hshape as [Hlen Hrows]. destruct Hin as [Hx Hy]. simpl in Hx, Hy.
  exists (<[Z.to_nat y := <[Z.to_nat x := f c]> row]> grid).
  split; [|split].
  - unfold grid_update. rewrite py_index_front by lia. rewrite Hrow.
    rewrite py_index_front by lia. by rewrite Hc.
  - split; [by rewrite length_insert|].
    apply Forall_insert; [done|]. by rewrite length_insert.
  - intros x' y' [Hx' Hy']. simpl in Hx', Hy'.
    unfold grid_cell, getitem. rewrite length_insert.
    rewrite !py_index_front by lia.
    destruct (decide (Z.to_nat y' = Z.to_nat y)) as [Ey|Ny].
    + rewrite Ey, list_lookup_insert_eq by lia. cbn.
      rewrite length_insert, Hrow. cbn.
      rewrite !py_index_front by lia.
      destruct (decide (Z.to_nat x' = Z.to_nat x)) as [Ex|Nx].
      * rewrite Ex, list_lookup_insert_eq by lia.
        rewrite decide_True; [done|]. f_equal; lia.
      * rewrite list_lookup_insert_ne by done.
        rewrite decide_False; [done|]. intros [=]. lia.
    + rewrite list_lookup_insert_ne by done.
      rewrite decide_False; [done|]. intros [=]. lia.
Qed.

Lemma make_grid_shape (w h : Z) : grid_shape w h (make_grid w h).
Proof.
  unfold make_grid. split.
  - by rewrite length_fmap, length_range.
  - apply Forall_fmap, Forall_forall. intros y _. simpl.
    by rewrite length_fmap, length_range.
Qed.

Lemma make_grid_cell (w h x y : Z) :
  in_bounds w h (x, y) →
  grid_cell (make_grid w h) x y = Ok (CELL.Build (x, y) 0 false).
Proof.
  intros [Hx Hy]. simpl in Hx, Hy.
  unfold grid_cell, getitem, make_grid.
  rewrite length_fmap, length_range, py_index_front by lia.
  rewrite list_lookup_fmap, lookup_range by lia. cbn.
  rewrite length_fmap, length_range, py_index_front by lia.
  rewrite list_lookup_fmap, lookup_range by lia. cbn.
  by rewrite !Z2Nat.id by lia.
Qed.

Lemma make_grid_placed (w h : Z) : placed w h (make_grid w h) [].
Proof.
  split; [apply make_grid_shape|]. split; [|split; [apply NoDup_nil_2|apply Forall_nil_2]].
  intros x y Hin. eexists. split; [by apply make_grid_cell|].
  simpl. repeat split; try done. by intros ?%elem_of_nil.
Qed.

(** ** The constructor: placing the bombs *)

Lemma randint_Ok (a b d : Z) : a ≤ b → randint a b d = Ok d.
Proof. intros H. unfold randint. destruct (Z.ltb_spec b a); [lia|done]. Qed.

Lemma placed_add (w h : Z) (grid grid' : grid_t) (bombs : list coord) (x y : Z) (c : CELL.t) :
  placed w h grid bombs → in_bounds w h (x, y) →
  grid_cell grid x y = Ok c → CELL.IS_BOMB c = false →
  grid_update grid x y (CELL.set_IS_BOMB true) = Ok grid' →
  placed w h grid' (bombs ++ [(x, y)]).
Proof.
  intros (Hshape & Hcells & Hnd & Hin) Hxy Hc Hb Hupd.
  destruct (grid_update_spec w h grid x y (CELL.set_IS_BOMB true) c Hshape Hxy Hc)
    as (g2 & Hupd' & Hshape' & Hcells').
  assert (g2 = grid') as -> by congruence.
  assert ((x, y) ∉ bombs) as Hfresh.
  { intros Hmem. destruct (Hcells x y Hxy) as (c' & Hc' & _ & _ & Hiff).
    assert (c' = c) as -> by congruence.
    apply Hiff in Hmem. congruence. }
  split; [done|]. split; [|split].
  - intros x' y' Hin'. rewrite (Hcells' x' y' Hin').
    destruct (decide ((x', y') = (x, y))) as [E|N].
    + injection E as -> ->. eexists. split; [done|].
      destruct (Hcells x y Hxy) as (c' & Hc' & Hco & Hh & _).
      assert (c' = c) as -> by congruence.
      simpl. repeat split; try done.
      intros _. apply elem_of_app. right. by apply list_elem_of_singleton.
    + destruct (Hcells x' y' Hin') as (c' & Hc' & Hco & Hh & Hiff).
      exists c'. repeat split; try done.
      * intros H. apply elem_of_app. left. by apply Hiff.
      * intros [H|H]%elem_of_app; [by apply Hiff|].
        apply list_elem_of_singleton in H. done.
  - apply NoDup_app. split; [done|]. split; [|apply NoDup_singleton].
    intros z Hz ->%list_elem_of_singleton. done.
  - apply Forall_app. split; [done|]. by apply Forall_singleton.
Qed.

Lemma place_bombs_placed (w h n : Z) (draws : list (Z * Z)) :
  ∀ (grid : grid_t) (bombs : list coord) (grid' : grid_t) (bombs' : list coord),
    placed w h grid bombs →
    Forall (in_bounds w h) draws →
    Z.of_nat (length bombs) ≤ n →
    place_bombs w h n draws grid bombs = Ok (grid', bombs') →
    placed w h grid' bombs' ∧ Z.of_nat (length bombs') = n.
Proof.
  induction draws as [|[dx dy] draws IH]; intros grid bombs grid' bombs' Hp Hd Hle.
  - simpl. destruct (Z.ltb_spec (Z.of_nat (length bombs)) n); simpl.
    + unfold randint. repeat case_match; done.
    + intros [= <- <-]. split; [done|lia].
  - simpl. destruct (Z.ltb_spec (Z.of_nat (length bombs)) n) as [Hlt|Hge]; simpl.
    2:{ intros [= <- <-]. split; [done|lia]. }
    apply Forall_cons in Hd as [Hxy Hd].
    pose proof Hxy as [Hx Hy]. simpl in Hx, Hy.
    rewrite !randint_Ok by lia. cbn.
    destruct Hp as (Hshape & Hcells & Hnd & Hin).
    destruct (Hcells dx dy Hxy) as (c & Hc & Hco & Hh & Hiff).
    rewrite Hc. cbn.
    destruct (CELL.IS_BOMB c) eqn:Hb.
    + apply IH; try done.
    + destruct (grid_update_spec w h grid dx dy (CELL.set_IS_BOMB true) c Hshape Hxy Hc)
        as (g2 & Hupd & _ & _).
      rewrite Hupd. cbn. apply IH; try done.
      * eapply placed_add; try done.
      * rewrite length_app. simpl. lia.
Qed.

(** ** The constructor: computing the hints *)

Lemma incr_hints_spec (w h : Z) (cs : list coord) :
  ∀ grid : grid_t,
    grid_shape w h grid → Forall (in_bounds w h) cs → NoDup cs →
    ∃ grid', incr_hints grid cs = Ok grid' ∧ grid_shape w h grid' ∧
      ∀ x y c, in_bounds w h (x, y) → grid_cell grid x y = Ok c →
        ∃ c', grid_cell grid' x y = Ok c' ∧
              CELL.COORDINATES c' = CELL.COORDINATES c ∧
              CELL.IS_BOMB c' = CELL.IS_BOMB c ∧
              CELL.HINT c' = CELL.HINT c + (if decide ((x, y) ∈ cs) then 1 else 0).
Proof.
  induction cs as [|[nx ny] cs IH]; intros grid Hshape Hin Hnd.
  - exists grid. repeat split; try done; try apply Hshape.
    intros x y c _ Hc. exists c. repeat split; try done.
    rewrite decide_False by apply not_elem_of_nil. lia.
  - apply Forall_cons in Hin as [Hn Hin]. apply NoDup_cons in Hnd as [Hfresh Hnd].
    destruct (grid_cell_lookup w h grid nx ny Hshape Hn) as (_ & c0 & _ & _ & _ & Hc0).
    destruct (grid_update_spec w h grid nx ny CELL.incr_HINT c0 Hshape Hn Hc0)
      as (g1 & Hupd & Hshape1 & Hcells1).
    destruct (IH g1 Hshape1 Hin Hnd) as (g2 & Hrec & Hshape2 & Hcells2).
    exists g2. split; [|split; [done|]].
    { simpl. rewrite Hupd. cbn. done. }
    intros x y c Hxy Hc. pose proof (Hcells1 x y Hxy) as H1.
    destruct (decide ((x, y) = (nx, ny))) as [E|N].
    + injection E as -> ->. assert (c0 = c) as -> by congruence.
      destruct (Hcells2 nx ny _ Hxy H1) as (c' & Hc' & Hco & Hb & Hh).
      exists c'. repeat split; try done.
      rewrite Hh. simpl. rewrite decide_False by done.
      rewrite decide_True by apply list_elem_of_here. lia.
    + rewrite Hc in H1.
      destruct (Hcells2 x y _ Hxy H1) as (c' & Hc' & Hco & Hb & Hh).
      exists c'. repeat split; try done.
      rewrite Hh. f_equal.
      destruct (decide ((x, y) ∈ cs)) as [Hm|Hm].
      * rewrite decide_True; [done|]. by apply list_elem_of_further.
      * rewrite decide_False; [done|]. intros [?|?]%elem_of_cons; done.
Qed.

Lemma set_hints_spec (w h : Z) (bombs : list coord) :
  ∀ grid : grid_t,
    grid_shape w h grid →
    ∃ grid', set_hints w h grid bombs = Ok grid' ∧ grid_shape w h grid' ∧
      ∀ x y c, in_bounds w h (x, y) → grid_cell grid x y = Ok c →
        ∃ c', grid_cell grid' x y = Ok c' ∧
              CELL.COORDINATES c' = CELL.COORDINATES c ∧
              CELL.IS_BOMB c' = CELL.IS_BOMB c ∧
              CELL.HINT c' = CELL.HINT c +
                Z.of_nat (length (filter (λ b, (x, y) ∈ neighbour_coordinates w h b.1 b.2) bombs)).
Proof.
  induction bombs as [|[bx by_] bombs IH]; intros grid Hshape.
  - exists grid. repeat split; try done; try apply Hshape.
    intros x y c _ Hc. exists c. repeat split; try done. simpl. lia.
  - destruct (incr_hints_spec w h (neighbour_coordinates w h bx by_) grid Hshape)
      as (g1 & Hinc & Hshape1 & Hcells1).
    { apply Forall_forall. intros n Hn. by apply elem_of_neighbour_coordinates in Hn as [? _]. }
    { apply NoDup_neighbour_coordinates. }
    destruct (IH g1 Hshape1) as (g2 & Hrec & Hshape2 & Hcells2).
    exists g2. split; [|split; [done|]].
    { simpl. rewrite Hinc. cbn. done. }
    intros x y c Hxy Hc.
    destruct (Hcells1 x y c Hxy Hc) as (c1 & Hc1 & Hco1 & Hb1 & Hh1).
    destruct (Hcells2 x y c1 Hxy Hc1) as (c2 & Hc2 & Hco2 & Hb2 & Hh2).
    exists c2. repeat split; try congruence.
    rewrite Hh2, Hh1, filter_cons. simpl.
    destruct (decide ((x, y) ∈ neighbour_coordinates w h bx by_)); simpl; lia.
Qed.

(** Counting the bombs around a cell from the list of bombs, or from the
    cells of the board, gives the same number. *)
Lemma count_neighbour_bombs (w h : Z) (bombs : list coord) (isb : coord → bool) (c : coord) :
  NoDup bombs → Forall (in_bounds w h) bombs → in_bounds w h c →
  (∀ d, in_bounds w h d → isb d = true ↔ d ∈ bombs) →
  length (filter (λ b, c ∈ neighbour_coordinates w h b.1 b.2) bombs) =
  length (filter (λ d, adjacent c d ∧ isb d = true) (all_coordinates w h)).
Proof.
  intros Hnd Hin Hc Hiff. apply Permutation_length, NoDup_Permutation.
  - by apply NoDup_filter.
  - apply NoDup_filter, NoDup_all_coordinates.
  - intros d. rewrite !list_elem_of_filter, elem_of_all_coordinates.
    rewrite Forall_forall in Hin. destruct d as [dx dy]. simpl.
    rewrite elem_of_neighbour_coordinates. split.
    + intros [[_ Hadj] Hd]. split; [split|].
      * by apply adjacent_sym.
      * apply Hiff; [by apply Hin|done].
      * by apply Hin.
    + intros [[Hadj Hb] Hd]. split; [split|].
      * done.
      * by apply adjacent_sym.
      * by apply Hiff.
Qed.

(** ** The constructor establishes the board invariant *)

Lemma init_inv (w h n : Z) (draws : list (Z * Z)) (g : MinesweeperGame) :
  0 < w → 0 < h → 0 ≤ n → Forall (in_bounds w h) draws →
  init w h n draws = Ok g →
  width g = w ∧ height g = h ∧ _known_cells_coordinates g = [] ∧
  _number_of_cells_to_uncover g = w * h - n ∧
  Z.of_nat (length (bombs g)) = n ∧
  grid_shape w h (_grid g) ∧
  NoDup (bombs g) ∧ Forall (in_bounds w h) (bombs g) ∧
  ∀ x y, in_bounds w h (x, y) →
    ∃ c, cell g x y = Ok c ∧ CELL.COORDINATES c = (x, y) ∧
         (CELL.IS_BOMB c = true ↔ (x, y) ∈ bombs g) ∧
         CELL.HINT c =
           Z.of_nat (length (filter (λ b, (x, y) ∈ neighbour_coordinates w h b.1 b.2) (bombs g))).
Proof.
  intros Hw Hh Hn Hd. unfold init.
  destruct (Z.ltb_spec 0 (w * h - n)) as [Hpos|]; simpl; [|done].
  destruct (place_bombs w h n draws (make_grid w h) []) as [[g1 bs]| |] eqn:Hp; cbn; try done.
  destruct (place_bombs_placed w h n draws _ _ _ _ (make_grid_placed w h) Hd Hn Hp)
    as ((Hshape & Hcells & Hnd & Hin) & Hlen).
  destruct (set_hints_spec w h bs g1 Hshape) as (g2 & Hs & Hshape2 & Hcells2).
  rewrite Hs. cbn. intros [= <-]. simpl.
  repeat (split; [done|]).
  intros x y Hxy. unfold cell. simpl.
  destruct (Hcells x y Hxy) as (c & Hc & Hco & Hh0 & Hiff).
  destruct (Hcells2 x y c Hxy Hc) as (c' & Hc' & Hco' & Hb' & Hh').
  exists c'. split; [done|]. split; [congruence|]. split; [by rewrite Hb'|].
  rewrite Hh', Hh0, Z.add_0_l. done.
Qed.

Lemma init_board_ok (w h n : Z) (draws : list (Z * Z)) (g : MinesweeperGame) :
  0 < w → 0 < h → 0 ≤ n → Forall (in_bounds w h) draws →
  init w h n draws = Ok g → board_ok g.
Proof.
  intros Hw Hh Hn Hd Hi.
  destruct (init_inv w h n draws g Hw Hh Hn Hd Hi)
    as (Ew & Eh & Ek & Eu & El & [Hrows Hcols] & Hnd & Hin & Hcells).
  assert (Hbomb : ∀ d, in_bounds w h d → is_bomb_at g d = true ↔ d ∈ bombs g).
  { intros [x y] Hxy. unfold is_bomb_at. simpl.
    destruct (Hcells x y Hxy) as (c & -> & _ & Hiff & _). done. }
  split; [|split; [|split]].
  - unfold grid_ok. rewrite Ew, Eh. repeat (split; [done|]).
    apply Forall_forall. intros [x y] Hxy%elem_of_all_coordinates.
    unfold coordinates_at. simpl.
    destruct (Hcells x y Hxy) as (c & -> & -> & _). done.
  - unfold hints_ok. rewrite Ew, Eh.
    apply Forall_forall. intros [x y] Hxy%elem_of_all_coordinates.
    unfold hint_at, neighbour_bombs. simpl. rewrite Ew, Eh.
    destruct (Hcells x y Hxy) as (c & -> & _ & _ & ->). f_equal.
    by apply count_neighbour_bombs.
  - unfold bombs_ok. rewrite Ew, Eh. split; [done|]. split; [done|]. split; [|lia].
    apply Forall_forall. intros d Hd'%elem_of_all_coordinates. by apply Hbomb.
  - unfold known_ok. rewrite Ek. split; [apply NoDup_nil_2|]. split; apply Forall_nil_2.
Qed.

(** ** The constructor returns *)

Lemma place_bombs_returns (w h n : Z) (draws : list (Z * Z)) :
  0 < w → 0 < h →
  ∀ (grid : grid_t) (bombs : list coord),
    placed w h grid bombs →
    Forall (in_bounds w h) draws → NoDup draws →
    (∀ d, d ∈ draws → d ∉ bombs) →
    n ≤ Z.of_nat (length bombs + length draws) →
    ∃ grid' bombs', place_bombs w h n draws grid bombs = Ok (grid', bombs').
Proof.
  intros Hw Hh.
  induction draws as [|[dx dy] draws IH]; intros grid bombs Hp Hin Hnd Hfresh Hlen; simpl.
  - destruct (Z.ltb_spec (Z.of_nat (length bombs)) n); simpl; [simpl in Hlen; lia|].
    by eexists _, _.
  - destruct (Z.ltb_spec (Z.of_nat (length bombs)) n); simpl; [|by eexists _, _].
    apply Forall_cons in Hin as [Hxy Hin]. apply NoDup_cons in Hnd as [Hd Hnd].
    rewrite !randint_Ok by lia. cbn.
    pose proof Hp as (Hshape & Hcells & _).
    destruct (Hcells dx dy Hxy) as (c & Hc & _ & _ & Hiff).
    rewrite Hc. cbn.
    destruct (CELL.IS_BOMB c) eqn:Hb.
    { exfalso. apply (Hfresh (dx, dy)); [apply list_elem_of_here|by apply Hiff]. }
    destruct (grid_update_spec w h grid dx dy (CELL.set_IS_BOMB true) c Hshape Hxy Hc)
      as (g2 & Hupd & _ & _).
    rewrite Hupd. cbn. apply IH; try done.
    + by eapply placed_add.
    + intros d Hd' [Hm|Hm%list_elem_of_singleton]%elem_of_app.
      * apply (Hfresh d); [by apply list_elem_of_further|done].
      * by subst d.
    + rewrite length_app. simpl in *. lia.
Qed.

(** For valid parameters there are draws with which the constructor builds a
    board: rejection sampling succeeds once every cell has been drawn. *)
Lemma init_returns (w h n : Z) :
  0 < w → 0 < h → 0 ≤ n < w * h →
  ∃ g, init w h n (all_coordinates w h) = Ok g.
Proof.
  intros Hw Hh Hn. unfold init.
  destruct (Z.ltb_spec 0 (w * h - n)); simpl; [|lia].
  assert (Forall (in_bounds w h) (all_coordinates w h)) as Hin.
  { apply Forall_forall. intros c. apply elem_of_all_coordinates. }
  destruct (place_bombs_returns w h n (all_coordinates w h) Hw Hh (make_grid w h) [])
    as (g1 & bs & Hp); try done.
  - apply make_grid_placed.
  - apply NoDup_all_coordinates.
  - intros d _. apply not_elem_of_nil.
  - simpl. pose proof (length_all_coordinates w h). lia.
  - rewrite Hp. cbn.
    destruct (place_bombs_placed w h n _ _ _ _ _ (make_grid_placed w h) Hin ltac:(simpl; lia) Hp)
      as ((Hshape & _) & _).
    destruct (set_hints_spec w h bs g1 Hshape) as (g2 & -> & _). cbn. by eexists.
Qed.

(** ** Facts about boards that satisfy the invariant *)

Lemma grid_ok_shape (g : MinesweeperGame) :
  grid_ok g → grid_shape (width g) (height g) (_grid g).
Proof. intros (_ & _ & Hr & Hc & _). by split. Qed.

Lemma grid_ok_cell (g : MinesweeperGame) (c : coord) :
  grid_ok g → in_bounds (width g) (height g) c →
  ∃ k, cell g c.1 c.2 = Ok k ∧ CELL.COORDINATES k = c ∧
       hint_at g c = CELL.HINT k ∧ is_bomb_at g c = CELL.IS_BOMB k ∧ cell_of g k.
Proof.
  intros (_ & _ & _ & _ & Hco) Hin.
  rewrite Forall_forall in Hco.
  pose proof (Hco c (proj2 (elem_of_all_coordinates _ _ c) Hin)) as Hc.
  unfold coordinates_at, hint_at, is_bomb_at, cell_of in *.
  destruct (cell g c.1 c.2) as [k| |] eqn:Hk; try done.
  injection Hc as Hc. exists k. rewrite Hc. done.
Qed.

Lemma cell_of_hint (g : MinesweeperGame) (k : CELL.t) :
  cell_of g k → hint_at g (CELL.COORDINATES k) = CELL.HINT k.
Proof. intros [_ H]. unfold hint_at. by rewrite H. Qed.

Lemma cell_of_bomb (g : MinesweeperGame) (k : CELL.t) :
  cell_of g k → is_bomb_at g (CELL.COORDINATES k) = CELL.IS_BOMB k.
Proof. intros [_ H]. unfold is_bomb_at. by rewrite H. Qed.

Lemma cells_at_spec (g : MinesweeperGame) (cs : list coord) :
  grid_ok g → Forall (in_bounds (width g) (height g)) cs →
  ∃ ns, cells_at (_grid g) cs = Ok ns ∧ CELL.COORDINATES <$> ns = cs ∧
        Forall (cell_of g) ns.
Proof.
  intros Hg. induction cs as [|[x y] cs IH]; intros Hin.
  - exists []. done.
  - apply Forall_cons in Hin as [Hc Hin].
    destruct (IH Hin) as (ns & Hns & Hco & Hall).
    destruct (grid_ok_cell g (x, y) Hg Hc) as (k & Hk & Hkc & _ & _ & Hof).
    exists (k :: ns). split; [|split].
    + simpl. unfold cell in Hk. simpl in Hk. rewrite Hk. cbn. rewrite Hns. done.
    + by rewrite fmap_cons, Hkc, Hco.
    + by apply Forall_cons.
Qed.

Lemma neighbour_cells_spec (g : MinesweeperGame) (x y : Z) :
  grid_ok g →
  ∃ ns, _neighbour_cells g x y = Ok ns ∧
        CELL.COORDINATES <$> ns = neighbour_coordinates (width g) (height g) x y ∧
        Forall (cell_of g) ns.
Proof.
  intros Hg. apply cells_at_spec; [done|].
  apply Forall_forall. intros n Hn. by apply elem_of_neighbour_coordinates in Hn as [? _].
Qed.

(** ** Counting unknown cells *)

Lemma filter_length_lt {A : Type} (P Q : A → Prop)
    `{∀ x, Decision (P x)} `{∀ x, Decision (Q x)} (l : list A) (a : A) :
  (∀ x, Q x → P x) → a ∈ l → P a → ¬ Q a →
  (length (filter Q l) < length (filter P l))%nat.
Proof.
  intros Himp Ha HP HQ. induction l as [|b l IH]; [by apply elem_of_nil in Ha|].
  assert (Hle : ∀ l', (length (filter Q l') ≤ length (filter P l'))%nat).
  { induction l' as [|z l' IHl]; [by rewrite !filter_nil|]. rewrite !filter_cons.
    destruct (decide (Q z)), (decide (P z)); simpl; try lia. naive_solver. }
  rewrite !filter_cons. apply elem_of_cons in Ha as [<-|Ha].
  - destruct (decide (Q a)), (decide (P a)); try done. simpl. specialize (Hle l). lia.
  - specialize (IH Ha).
    destruct (decide (Q b)), (decide (P b)); simpl; try lia. naive_solver.
Qed.

Lemma unknown_count_add (g : MinesweeperGame) (known : list coord) (c : coord) :
  in_bounds (width g) (height g) c → c ∉ known →
  (unknown_count g (known ++ [c]) < unknown_count g known)%nat.
Proof.
  intros Hin Hc. unfold unknown_count.
  apply (filter_length_lt _ _ _ c).
  - intros x Hx Hk. apply Hx, elem_of_app. by left.
  - by apply elem_of_all_coordinates.
  - done.
  - intros Hn. apply Hn, elem_of_app. right. by apply list_elem_of_singleton.
Qed.

Lemma unknown_count_le (g : MinesweeperGame) (known : list coord) :
  (unknown_count g known ≤ length (all_coordinates (width g) (height g)))%nat.
Proof. apply length_filter. Qed.

(** ** The traversal of [play] *)

Lemma app_snoc_app {A : Type} (l l' : list A) (x : A) : (l ++ [x]) ++ l' = l ++ x :: l'.
Proof. by rewrite <- app_assoc. Qed.

Lemma play_loop_spec (g : MinesweeperGame) (Hg : grid_ok g) :
  ∀ (fuel : nat) (stack : list CELL.t) (hints : list (coord * Z)) (known : list coord),
    Forall (cell_of g) stack →
    (8 * unknown_count g known + length stack < fuel)%nat →
    NoDup known →
    ∃ new : list CELL.t,
      play_loop fuel g stack hints known =
        (Ok (hints ++ (hint_entry <$> new)), known ++ (CELL.COORDINATES <$> new)) ∧
      Forall (cell_of g) new ∧
      NoDup (known ++ (CELL.COORDINATES <$> new)) ∧
      (∀ k, k ∈ stack → CELL.COORDINATES k ∈ known ++ (CELL.COORDINATES <$> new)) ∧
      (∀ k n, k ∈ new → CELL.HINT k = 0 →
         n ∈ neighbour_coordinates (width g) (height g)
               (CELL.COORDINATES k).1 (CELL.COORDINATES k).2 →
         n ∈ known ++ (CELL.COORDINATES <$> new)) ∧
      (∀ P : coord → Prop,
         (∀ k, k ∈ stack → P (CELL.COORDINATES k)) →
         (∀ k n, cell_of g k → P (CELL.COORDINATES k) → CELL.HINT k = 0 →
            n ∈ neighbour_coordinates (width g) (height g)
                  (CELL.COORDINATES k).1 (CELL.COORDINATES k).2 → P n) →
         ∀ k, k ∈ new → P (CELL.COORDINATES k)).
Proof.
  induction fuel as [|fuel IH]; intros stack hints known Hstack Hfuel Hnd; [lia|].
  simpl. destruct (pop stack) as [[c rest]|] eqn:Hpop.
  2:{ apply pop_None in Hpop as ->. exists []. rewrite !fmap_nil, !app_nil_r.
      split; [done|]. split; [done|]. split; [done|].
      split; [by intros k ?%elem_of_nil|].
      split; [by intros k n ?%elem_of_nil|].
      by intros P _ _ k ?%elem_of_nil. }
  apply pop_Some in Hpop as ->.
  apply Forall_app in Hstack as [Hrest Hc]. rewrite Forall_singleton in Hc.
  rewrite length_app in Hfuel. cbn [length] in Hfuel.
  destruct (decide (CELL.COORDINATES c ∈ known)) as [Hknown|Hnew].
  - destruct (IH rest hints known Hrest ltac:(lia) Hnd)
      as (new & Heq & Hcells & Hnd' & Hin & Hclosed & Hsound).
    exists new. split; [done|]. split; [done|]. split; [done|]. split; [|split; [done|]].
    + intros k [Hk|Hk%list_elem_of_singleton]%elem_of_app; [by apply Hin|].
      subst k. apply elem_of_app. by left.
    + intros P Hstart Hstep. apply Hsound; [|done].
      intros k Hk. apply Hstart, elem_of_app. by left.
  - pose proof (unknown_count_add g known _ (proj1 Hc) Hnew) as Hdec.
    assert (NoDup (known ++ [CELL.COORDINATES c])) as Hnd1.
    { apply NoDup_app. split; [done|]. split; [|apply NoDup_singleton].
      by intros z Hz ->%list_elem_of_singleton. }
    destruct (Z.eqb_spec (CELL.HINT c) 0) as [Hzero|Hpos].
    + destruct (neighbour_cells_spec g (CELL.COORDINATES c).1 (CELL.COORDINATES c).2 Hg)
        as (ns & Hns & Hnsc & Hnscells).
      rewrite Hns.
      assert (length ns ≤ 8)%nat as Hlen.
      { rewrite <- (length_fmap CELL.COORDINATES), Hnsc.
        apply length_neighbour_coordinates. }
      destruct (IH (rest ++ ns) (hints ++ [(CELL.COORDINATES c, CELL.HINT c)])
                  (known ++ [CELL.COORDINATES c]))
        as (new & Heq & Hcells & Hnd' & Hin & Hclosed & Hsound).
      { by apply Forall_app. }
      { rewrite length_app. lia. }
      { done. }
      exists (c :: new). rewrite !fmap_cons. rewrite !app_snoc_app in *.
      split; [done|]. split; [by apply Forall_cons|]. split; [done|].
      split; [|split].
      * intros k [Hk|Hk%list_elem_of_singleton]%elem_of_app.
        -- apply Hin, elem_of_app. by left.
        -- subst k. apply elem_of_app. right. apply list_elem_of_here.
      * intros k n [->|Hk]%elem_of_cons Hk0 Hn; [|by eapply Hclosed].
        rewrite <- Hnsc in Hn. apply list_elem_of_fmap in Hn as (k' & -> & Hk').
        apply Hin, elem_of_app. by right.
      * intros P Hstart Hstep k [->|Hk]%elem_of_cons.
        { apply Hstart, elem_of_app. right. by apply list_elem_of_singleton. }
        apply (Hsound P); [|done|done].
        intros k' [Hk'|Hk']%elem_of_app.
        -- apply Hstart, elem_of_app. by left.
        -- apply (Hstep c); [done| |done|].
           ++ apply Hstart, elem_of_app. right. by apply list_elem_of_singleton.
           ++ rewrite <- Hnsc. by apply list_elem_of_fmap_2.
    + destruct (IH rest (hints ++ [(CELL.COORDINATES c, CELL.HINT c)])
                  (known ++ [CELL.COORDINATES c]))
        as (new & Heq & Hcells & Hnd' & Hin & Hclosed & Hsound).
      { done. }
      { lia. }
      { done. }
      exists (c :: new). rewrite !fmap_cons. rewrite !app_snoc_app in *.
      split; [done|]. split; [by apply Forall_cons|]. split; [done|].
      split; [|split].
      * intros k [Hk|Hk%list_elem_of_singleton]%elem_of_app.
        -- by apply Hin.
        -- subst k. apply elem_of_app. right. apply list_elem_of_here.
      * intros k n [->|Hk]%elem_of_cons Hk0 Hn; [done|by eapply Hclosed].
      * intros P Hstart Hstep k [->|Hk]%elem_of_cons.
        { apply Hstart, elem_of_app. right. by apply list_elem_of_singleton. }
        apply (Hsound P); [|done|done].
        intros k' Hk'. apply Hstart, elem_of_app. by left.
Qed.

Lemma play_loop_fuel_mono (g : MinesweeperGame) :
  ∀ (fuel fuel' : nat) stack hints known r known',
    play_loop fuel g stack hints known = (Ok r, known') → (fuel ≤ fuel')%nat →
    play_loop fuel' g stack hints known = (Ok r, known').
Proof.
  induction fuel as [|fuel IH]; intros fuel' stack hints known r known' Hrun Hle; [done|].
  destruct fuel' as [|fuel']; [lia|]. simpl in *.
  destruct (pop stack) as [[c rest]|]; [|done].
  destruct (decide (CELL.COORDINATES c ∈ known)).
  - apply (IH fuel'); [done|lia].
  - destruct (CELL.HINT c =? 0).
    + destruct (_neighbour_cells g _ _); try done. apply (IH fuel'); [done|lia].
    + apply (IH fuel'); [done|lia].
Qed.

(** ** Hints and the flood set *)

Lemma hint_nonneg (g : MinesweeperGame) (c : coord) :
  hints_ok g → in_bounds (width g) (height g) c → 0 ≤ hint_at g c.
Proof.
  intros Hh Hc. unfold hints_ok in Hh. rewrite Forall_forall in Hh.
  rewrite (Hh c) by (by apply elem_of_all_coordinates).
  unfold neighbour_bombs. lia.
Qed.

Lemma zero_hint_safe (g : MinesweeperGame) (c n : coord) :
  hints_ok g → in_bounds (width g) (height g) c → hint_at g c = 0 →
  n ∈ neighbour_coordinates (width g) (height g) c.1 c.2 →
  is_bomb_at g n = false.
Proof.
  intros Hh Hc Hz Hn. unfold hints_ok in Hh. rewrite Forall_forall in Hh.
  rewrite (Hh c) in Hz by (by apply elem_of_all_coordinates).
  unfold neighbour_bombs in Hz.
  destruct (is_bomb_at g n) eqn:Hb; [exfalso|done].
  destruct c as [x y]. simpl in Hn.
  apply elem_of_neighbour_coordinates in Hn as [Hin Hadj].
  assert (n ∈ filter (λ d, adjacent (x, y) d ∧ is_bomb_at g d = true)
                     (all_coordinates (width g) (height g))) as Hmem.
  { apply list_elem_of_filter. split; [done|]. by apply elem_of_all_coordinates. }
  destruct (filter _ _); [by apply elem_of_nil in Hmem|]. simpl in Hz. lia.
Qed.

Lemma flood_set_step (g : MinesweeperGame) (s c n : coord) :
  hints_ok g →
  flood_set g s c → hint_at g c = 0 →
  n ∈ neighbour_coordinates (width g) (height g) c.1 c.2 →
  flood_set g s n.
Proof.
  intros Hh Hc Hz Hn. destruct c as [x y]. simpl in Hn.
  apply elem_of_neighbour_coordinates in Hn as [Hin Hadj].
  assert (zero_region g s (x, y)) as Hreg.
  { destruct Hc as [Hc|[Hc|(c' & _ & _ & _ & Hpos)]]; [|done|lia].
    subst s. by apply zero_region_start. }
  pose proof (hint_nonneg g n Hh Hin) as Hge.
  destruct (decide (hint_at g n = 0)) as [Hn0|Hn0].
  - right. left. by apply (zero_region_step g s (x, y) n).
  - right. right. exists (x, y). split; [done|]. split; [done|]. split; [done|lia].
Qed.

(** A set of cells that contains the start cell and the neighbours of each
    of its zero-hint cells contains the flood set. *)
Lemma flood_set_closed (g : MinesweeperGame) (K : list coord) (s c : coord) :
  s ∈ K →
  (∀ a n, a ∈ K → hint_at g a = 0 →
     n ∈ neighbour_coordinates (width g) (height g) a.1 a.2 → n ∈ K) →
  flood_set g s c → c ∈ K.
Proof.
  intros Hs Hclosed Hc.
  assert (Hreg : ∀ a, zero_region g s a → a ∈ K).
  { intros a Ha. induction Ha as [|a n Ha IH Hin Hadj Hz]; [done|].
    apply (Hclosed a n IH).
    - by inversion Ha.
    - destruct a. by apply elem_of_neighbour_coordinates. }
  destruct Hc as [->|[Hc|(a & Ha & Hin & Hadj & Hpos)]]; [done|by apply Hreg|].
  apply (Hclosed a c (Hreg a Ha)).
  - by inversion Ha.
  - destruct a. by apply elem_of_neighbour_coordinates.
Qed.

(** ** What a call of [play] on a safe cell does *)

Lemma play_spec (g : MinesweeperGame) (x y : Z) (fuel : nat) :
  board_ok g → in_bounds (width g) (height g) (x, y) → is_bomb_at g (x, y) = false →
  (play_fuel g ≤ fuel)%nat →
  ∃ new : list CELL.t,
    let known' := _known_cells_coordinates g ++ (CELL.COORDINATES <$> new) in
    play fuel g x y =
      (Ok (if decide (is_won (set_known g known')) then Won
           else Hints (hint_entry <$> new)),
       set_known g known') ∧
    Forall (cell_of g) new ∧
    NoDup (CELL.COORDINATES <$> new) ∧
    (∀ c, c ∈ (CELL.COORDINATES <$> new) ↔
          (c ∉ _known_cells_coordinates g) ∧ flood_set g (x, y) c) ∧
    board_ok (set_known g known').
Proof.
  intros (Hg & Hh & Hb & Hk) Hxy Hsafe Hfuel.
  destruct Hk as (Hnd & Hksafe & Hkclosed).
  rewrite Forall_forall in Hksafe, Hkclosed.
  destruct (grid_ok_cell g (x, y) Hg Hxy) as (k & Hcell & Hkc & Hkh & Hkb & Hkof).
  simpl in Hcell.
  destruct (play_loop_spec g Hg fuel [k] [] (_known_cells_coordinates g))
    as (new & Heq & Hcells & Hnd' & Hin & Hclosed & Hsound).
  { by apply Forall_singleton. }
  { pose proof (unknown_count_le g (_known_cells_coordinates g)).
    unfold play_fuel in Hfuel. simpl. lia. }
  { done. }
  exists new. cbn zeta.
  set (known' := _known_cells_coordinates g ++ (CELL.COORDINATES <$> new)) in *.
  assert (Hstart : (x, y) ∈ known').
  { rewrite <- Hkc. apply Hin, list_elem_of_here. }
  assert (Hflood : ∀ k', k' ∈ new → flood_set g (x, y) (CELL.COORDINATES k')).
  { apply (Hsound (flood_set g (x, y))).
    - intros k' ->%list_elem_of_singleton. left. done.
    - intros k' n Hof HP Hz Hn. apply (flood_set_step g _ (CELL.COORDINATES k')); try done.
      by rewrite cell_of_hint. }
  assert (Hnobomb : ∀ k', k' ∈ new → is_bomb_at g (CELL.COORDINATES k') = false).
  { apply (Hsound (λ c, is_bomb_at g c = false)).
    - intros k' ->%list_elem_of_singleton. by rewrite Hkc.
    - intros k' n Hof HP Hz Hn.
      apply (zero_hint_safe g (CELL.COORDINATES k')); try done; [apply Hof|].
      by rewrite cell_of_hint. }
  assert (Hclosed' : ∀ a n, a ∈ known' → hint_at g a = 0 →
            n ∈ neighbour_coordinates (width g) (height g) a.1 a.2 → n ∈ known').
  { intros a n [Ha|Ha]%elem_of_app Hz Hn.
    - apply elem_of_app. left.
      specialize (Hkclosed a Ha Hz). rewrite Forall_forall in Hkclosed. by apply Hkclosed.
    - apply list_elem_of_fmap in Ha as (k' & -> & Hk').
      apply (Hclosed k' n); try done. rewrite <- cell_of_hint with (g := g); [done|].
      rewrite Forall_forall in Hcells. by apply Hcells. }
  split; [|split; [done|split; [|split]]].
  - unfold play. rewrite Hcell, <- Hkb, Hsafe, Heq. cbn [app].
    unfold is_won. cbn [set_known _known_cells_coordinates _number_of_cells_to_uncover].
    destruct (Z.eqb_spec (Z.of_nat (length known')) (_number_of_cells_to_uncover g));
      [by rewrite decide_True|by rewrite decide_False].
  - by apply NoDup_app in Hnd' as (_ & _ & ?).
  - intros c. split.
    + intros Hc. split.
      * apply NoDup_app in Hnd' as (_ & Hdisj & _). intros Hc'. by apply (Hdisj c).
      * apply list_elem_of_fmap in Hc as (k' & -> & Hk'). by apply Hflood.
    + intros [Hc Hf].
      assert (c ∈ known') as [?|?]%elem_of_app; try done.
      by apply (flood_set_closed g known' (x, y)).
  - split; [exact Hg|]. split; [exact Hh|]. split; [exact Hb|].
    split; [exact Hnd'|]. split.
    + apply Forall_forall. intros c [Hc|Hc]%elem_of_app; [by apply Hksafe|].
      apply list_elem_of_fmap in Hc as (k' & -> & Hk').
      split; [|by apply Hnobomb].
      rewrite Forall_forall in Hcells. by apply Hcells.
    + apply Forall_forall. intros c Hc Hz. apply Forall_forall.
      intros n Hn. by apply (Hclosed' c n).
Qed.

(** ** Calls of [play]: what never changes, fuel, the invariant *)

Lemma set_known_same (g : MinesweeperGame) :
  set_known g (_known_cells_coordinates g) = g.
Proof. by destruct g. Qed.

Lemma play_frame (fuel : nat) (g : MinesweeperGame) (x y : Z) :
  ∃ known, (play fuel g x y).2 = set_known g known.
Proof.
  unfold play. destruct (cell g x y) as [k| |]; try (exists (_known_cells_coordinates g);
    by rewrite set_known_same).
  destruct (CELL.IS_BOMB k).
  { exists (_known_cells_coordinates g). by rewrite set_known_same. }
  destruct (play_loop _ _ _ _ _) as [[hints| |] known]; exists known; try done.
  by destruct (_ =? _).
Qed.

Lemma play_all_frame (fuel : nat) (moves : list coord) :
  ∀ g, ∃ known, play_all fuel g moves = set_known g known.
Proof.
  induction moves as [|m moves IH]; intros g.
  - exists (_known_cells_coordinates g). by rewrite set_known_same.
  - destruct (play_frame fuel g m.1 m.2) as (k1 & Hk1).
    destruct (IH (set_known g k1)) as (k2 & Hk2). exists k2.
    unfold play_all in *. simpl. rewrite Hk1. exact Hk2.
Qed.

Lemma play_bomb (fuel : nat) (g : MinesweeperGame) (x y : Z) :
  is_bomb_at g (x, y) = true → play fuel g x y = (Ok Lost, g).
Proof.
  unfold is_bomb_at, play. simpl.
  destruct (cell g x y) as [k| |]; try done. by intros ->.
Qed.

Lemma play_fuel_mono (g : MinesweeperGame) (x y : Z) (fuel fuel' : nat)
    (r : play_result) (g' : MinesweeperGame) :
  play fuel g x y = (Ok r, g') → (fuel ≤ fuel')%nat → play fuel' g x y = (Ok r, g').
Proof.
  unfold play. destruct (cell g x y) as [k| |]; try done.
  destruct (CELL.IS_BOMB k); [done|].
  destruct (play_loop fuel _ _ _ _) as [[hints| |] known] eqn:Hrun; try done.
  intros Hres Hle.
  by rewrite (play_loop_fuel_mono g fuel fuel' _ _ _ _ _ Hrun Hle).
Qed.

Lemma play_board_ok (fuel : nat) (g : MinesweeperGame) (x y : Z) :
  board_ok g → in_bounds (width g) (height g) (x, y) → (play_fuel g ≤ fuel)%nat →
  board_ok (play fuel g x y).2.
Proof.
  intros Hok Hxy Hfuel. destruct (is_bomb_at g (x, y)) eqn:Hb.
  - by rewrite play_bomb.
  - destruct (play_spec g x y fuel Hok Hxy Hb Hfuel) as (new & -> & _ & _ & _ & Hok').
    done.
Qed.

Lemma play_all_board_ok (fuel : nat) (moves : list coord) :
  ∀ g, board_ok g → Forall (in_bounds (width g) (height g)) moves →
       (play_fuel g ≤ fuel)%nat → board_ok (play_all fuel g moves).
Proof.
  induction moves as [|[x y] moves IH]; intros g Hok Hin Hfuel; [done|].
  apply Forall_cons in Hin as [Hxy Hin]. simpl.
  pose proof (play_board_ok fuel g x y Hok Hxy Hfuel) as Hok1.
  destruct (play_frame fuel g x y) as (k1 & Hk1).
  apply IH; rewrite ?Hk1 in *; done.
Qed.

(** The known cells and the bombs are distinct cells of the board, so there
    are never more known cells than cells to uncover. *)
Lemma known_count_le (g : MinesweeperGame) :
  board_ok g →
  Z.of_nat (length (_known_cells_coordinates g)) ≤ _number_of_cells_to_uncover g.
Proof.
  intros ((Hw & Hh & _) & _ & (Hbnd & Hbin & Hbiff & Hun) & (Hknd & Hksafe & _)).
  rewrite Forall_forall in Hbin, Hbiff, Hksafe.
  assert (length (_known_cells_coordinates g ++ bombs g)
          ≤ length (all_coordinates (width g) (height g)))%nat as Hle.
  { apply submseteq_length, NoDup_submseteq.
    - apply NoDup_app. split; [done|]. split; [|done].
      intros c Hc Hb. destruct (Hksafe c Hc) as [Hin Hsafe].
      apply elem_of_all_coordinates, Hbiff in Hin. apply Hin in Hb. congruence.
    - intros c [Hc|Hc]%elem_of_app; apply elem_of_all_coordinates.
      + by apply Hksafe.
      + by apply Hbin. }
  rewrite length_app in Hle.
  pose proof (length_all_coordinates (width g) (height g)). lia.
Qed.

(** * The claims *)

(** ** C1: what a click on a safe cell uncovers *)

(** C1 (as amended).  On every board that satisfies the invariant, [play] on
    a safe cell [(x, y)] of the board appends to the known cells exactly the
    cells of the flood set of [(x, y)] that were not known before: the cell
    itself and, when its hint is 0, the connected zero-hint region around it
    with its frontier of cells with a positive hint.  Each of these cells
    is recorded once, with its hint, in the list of hints that [play]
    accumulates; that list is the returned value unless the call wins the
    game, in which case [True] alone is returned. *)
Theorem C1_play_uncovers_flood_set (fuel : nat) (g : MinesweeperGame) (x y : Z) :
  board_ok g → in_bounds (width g) (height g) (x, y) → is_bomb_at g (x, y) = false →
  (play_fuel g ≤ fuel)%nat →
  ∃ hints : list (coord * Z),
    (play fuel g x y).1 =
      Ok (if decide (is_won (play fuel g x y).2) then Won else Hints hints) ∧
    _known_cells_coordinates (play fuel g x y).2 =
      _known_cells_coordinates g ++ hints.*1 ∧
    NoDup hints.*1 ∧
    (∀ c, c ∈ hints.*1 ↔ (c ∉ _known_cells_coordinates g) ∧ flood_set g (x, y) c) ∧
    (∀ c v, (c, v) ∈ hints → v = hint_at g c).
Proof.
  intros Hok Hxy Hsafe Hfuel.
  destruct (play_spec g x y fuel Hok Hxy Hsafe Hfuel)
    as (new & Hplay & Hcells & Hnd & Hset & _).
  cbn zeta in Hplay. exists (hint_entry <$> new). rewrite Hplay. cbn [fst snd].
  assert ((hint_entry <$> new).*1 = CELL.COORDINATES <$> new) as ->.
  { by rewrite <- list_fmap_compose. }
  repeat (split; [done|]).
  intros c v (k & [= -> ->] & Hk)%list_elem_of_fmap.
  rewrite Forall_forall in Hcells. by rewrite cell_of_hint by (by apply Hcells).
Qed.

Lemma C1_witness :
  ∃ hints : list (coord * Z),
    (play 200 game_4x4 0 0).1 =
      Ok (if decide (is_won (play 200 game_4x4 0 0).2) then Won else Hints hints) ∧
    _known_cells_coordinates (play 200 game_4x4 0 0).2 =
      _known_cells_coordinates game_4x4 ++ hints.*1 ∧
    NoDup hints.*1 ∧
    (∀ c, c ∈ hints.*1 ↔
          (c ∉ _known_cells_coordinates game_4x4) ∧ flood_set game_4x4 (0, 0) c) ∧
    (∀ c v, (c, v) ∈ hints → v = hint_at game_4x4 c).
Proof.
  apply (C1_play_uncovers_flood_set 200 game_4x4 0 0).
  - apply (bool_decide_unpack _). vm_compute. exact I.
  - vm_compute. repeat split; discriminate.
  - reflexivity.
  - vm_compute. lia.
Defined.

(** C1 as stated fails when the click wins the game: on the three by three
    board with its bomb at [(2, 2)], a click on the safe corner [(0, 0)] of
    the fresh board uncovers eight cells, and the call returns [True], not a
    list in which they are recorded. *)
Lemma C1_counterexample :
  board_ok game_3x3 ∧ in_bounds 3 3 (0, 0) ∧ is_bomb_at game_3x3 (0, 0) = false ∧
  _known_cells_coordinates game_3x3 = [] ∧
  length (_known_cells_coordinates (play 100 game_3x3 0 0).2) = 8%nat ∧
  (play 100 game_3x3 0 0).1 = Ok Won ∧
  ¬ ∃ hints, (play 100 game_3x3 0 0).1 = Ok (Hints hints).
Proof.
  split; [apply (bool_decide_unpack _); vm_compute; exact I|].
  split; [vm_compute; repeat split; discriminate|].
  repeat (split; [reflexivity|]).
  intros [hints H]. vm_compute in H. discriminate.
Qed.

(** ** C2: winning *)

(** C2.  On every board that satisfies the invariant, [play] on a safe cell
    of the board returns [True] (game won) if and only if, after the
    traversal, the number of known cells is the number of safe cells,
    [width * height] minus the number of bombs; otherwise it returns the
    list of hints.  [True] carries no list: the hints of a winning call are
    dropped. *)
Theorem C2_play_wins_iff_all_safe_cells_known (fuel : nat) (g : MinesweeperGame) (x y : Z) :
  board_ok g → in_bounds (width g) (height g) (x, y) → is_bomb_at g (x, y) = false →
  (play_fuel g ≤ fuel)%nat →
  ∃ (r : play_result) (g' : MinesweeperGame),
    play fuel g x y = (Ok r, g') ∧
    (r = Won ↔
     Z.of_nat (length (_known_cells_coordinates g')) =
       width g * height g - Z.of_nat (length (bombs g))) ∧
    (r = Won ∨ ∃ hints, r = Hints hints).
Proof.
  intros Hok Hxy Hsafe Hfuel.
  destruct (play_spec g x y fuel Hok Hxy Hsafe Hfuel) as (new & Hplay & _).
  cbn zeta in Hplay. eexists _, _. split; [exact Hplay|].
  destruct Hok as (_ & _ & (_ & _ & _ & Hun) & _). rewrite <- Hun.
  cbn [set_known _known_cells_coordinates].
  destruct (decide _) as [Hw|Hw]; unfold is_won in Hw;
    cbn [set_known _known_cells_coordinates _number_of_cells_to_uncover] in Hw.
  - split; [done|by left].
  - split; [split; [done|by intros ?]|right; by eexists].
Qed.

Lemma C2_witness :
  ∃ (r : play_result) (g' : MinesweeperGame),
    play 20 game_1x2 0 0 = (Ok r, g') ∧
    (r = Won ↔
     Z.of_nat (length (_known_cells_coordinates g')) =
       width game_1x2 * height game_1x2 - Z.of_nat (length (bombs game_1x2))) ∧
    (r = Won ∨ ∃ hints, r = Hints hints).
Proof.
  apply (C2_play_wins_iff_all_safe_cells_known 20 game_1x2 0 0).
  - apply (bool_decide_unpack _). vm_compute. exact I.
  - vm_compute. repeat split; discriminate.
  - reflexivity.
  - vm_compute. lia.
Defined.

(** ** C3: clicking a bomb *)

(** C3.  On every board, [play] on a cell that holds a bomb returns [False]
    (game lost) and leaves the game object as it was: the list of known
    cells and its length do not change, so the clicked cell is not added to
    the known cells. *)
Theorem C3_play_bomb_returns_lost (fuel : nat) (g : MinesweeperGame) (x y : Z) :
  is_bomb_at g (x, y) = true →
  play fuel g x y = (Ok Lost, g) ∧
  _known_cells_coordinates (play fuel g x y).2 = _known_cells_coordinates g ∧
  length (_known_cells_coordinates (play fuel g x y).2) =
    length (_known_cells_coordinates g).
Proof. intros Hb. by rewrite (play_bomb fuel g x y Hb). Qed.

Lemma C3_witness :
  play 10 game_1x2 0 1 = (Ok Lost, game_1x2) ∧
  _known_cells_coordinates (play 10 game_1x2 0 1).2 = _known_cells_coordinates game_1x2 ∧
  length (_known_cells_coordinates (play 10 game_1x2 0 1).2) =
    length (_known_cells_coordinates game_1x2).
Proof. apply (C3_play_bomb_returns_lost 10 game_1x2 0 1). reflexivity. Defined.

(** ** C6: clicking a known cell *)

(** C6.  On every board that satisfies the invariant and is not won, [play]
    on a cell of the board that is already known returns the empty list of
    hints and leaves the game object, and so the number of known cells, as
    it was. *)
Theorem C6_play_known_cell_returns_no_hints (fuel : nat) (g : MinesweeperGame) (x y : Z) :
  board_ok g → in_bounds (width g) (height g) (x, y) →
  (x, y) ∈ _known_cells_coordinates g → ¬ is_won g → (2 ≤ fuel)%nat →
  play fuel g x y = (Ok (Hints []), g) ∧
  length (_known_cells_coordinates (play fuel g x y).2) =
    length (_known_cells_coordinates g).
Proof.
  intros (Hg & _ & _ & (_ & Hksafe & _)) Hxy Hknown Hprogress Hfuel.
  rewrite Forall_forall in Hksafe. destruct (Hksafe _ Hknown) as [_ Hsafe].
  destruct (grid_ok_cell g (x, y) Hg Hxy) as (k & Hcell & Hkc & _ & Hkb & _).
  simpl in Hcell.
  assert (play fuel g x y = (Ok (Hints []), g)) as Hplay; [|by rewrite Hplay].
  unfold play. rewrite Hcell, <- Hkb, Hsafe.
  destruct fuel as [|[|fuel]]; [lia|lia|].
  cbn [play_loop pop rev app]. rewrite Hkc, decide_True by done.
  cbn [play_loop pop rev]. rewrite set_known_same.
  unfold is_won in Hprogress.
  by destruct (Z.eqb_spec (Z.of_nat (length (_known_cells_coordinates g)))
                          (_number_of_cells_to_uncover g)).
Qed.

Lemma C6_witness :
  play 10 (play 10 game_4x1 1 0).2 1 0 = (Ok (Hints []), (play 10 game_4x1 1 0).2) ∧
  length (_known_cells_coordinates (play 10 (play 10 game_4x1 1 0).2 1 0).2) =
    length (_known_cells_coordinates (play 10 game_4x1 1 0).2).
Proof.
  apply (C6_play_known_cell_returns_no_hints 10 (play 10 game_4x1 1 0).2 1 0).
  - apply (bool_decide_unpack _). vm_compute. exact I.
  - vm_compute. repeat split; discriminate.
  - vm_compute. apply list_elem_of_here.
  - vm_compute. discriminate.
  - lia.
Defined.

(** ** C9: termination *)

(** C9.  On every board that satisfies the invariant, [play] on a cell of
    the board returns: with [play_fuel g] units of fuel or more the loop
    empties its stack and the call yields one and the same result.  The
    call appends at most [width * height] cells to the known cells. *)
Theorem C9_play_terminates (g : MinesweeperGame) (x y : Z) :
  board_ok g → in_bounds (width g) (height g) (x, y) →
  ∃ (r : play_result) (g' : MinesweeperGame) (new : list coord),
    (∀ fuel, (play_fuel g ≤ fuel)%nat → play fuel g x y = (Ok r, g')) ∧
    _known_cells_coordinates g' = _known_cells_coordinates g ++ new ∧
    Z.of_nat (length new) ≤ width g * height g.
Proof.
  intros Hok Hxy. pose proof Hok as ((Hw & Hh & _) & _).
  destruct (is_bomb_at g (x, y)) eqn:Hb.
  - exists Lost, g, []. split; [|split].
    + intros fuel _. by apply play_bomb.
    + by rewrite app_nil_r.
    + simpl. lia.
  - destruct (play_spec g x y (play_fuel g) Hok Hxy Hb ltac:(lia))
      as (new & Hplay & Hcells & Hnd & _).
    cbn zeta in Hplay. eexists _, _, (CELL.COORDINATES <$> new). split; [|split].
    + intros fuel Hfuel. by apply (play_fuel_mono g x y (play_fuel g) fuel).
    + done.
    + rewrite <- length_all_coordinates by lia. apply inj_le.
      apply submseteq_length, NoDup_submseteq; [done|].
      intros c (k & -> & Hk)%list_elem_of_fmap. apply elem_of_all_coordinates.
      rewrite Forall_forall in Hcells. by apply Hcells.
Qed.

Lemma C9_witness :
  ∃ (r : play_result) (g' : MinesweeperGame) (new : list coord),
    (∀ fuel, (play_fuel game_4x4 ≤ fuel)%nat → play fuel game_4x4 0 0 = (Ok r, g')) ∧
    _known_cells_coordinates g' = _known_cells_coordinates game_4x4 ++ new ∧
    Z.of_nat (length new) ≤ width game_4x4 * height game_4x4.
Proof.
  apply (C9_play_terminates game_4x4 0 0).
  - apply (bool_decide_unpack _). vm_compute. exact I.
  - vm_compute. repeat split; discriminate.
Defined.

(** ** C10: only safe cells become known *)

(** C10.  Start from any board built by the constructor and make any sequence
    of calls of [play] on cells of the board.  Every known cell of the
    resulting game is a cell of the board that holds no bomb, the number of
    known cells is at most the number of cells to uncover, and that number
    is [width * height] minus the number of bombs. *)
Theorem C10_known_cells_are_safe (w h n : Z) (draws : list (Z * Z))
    (g0 : MinesweeperGame) (fuel : nat) (moves : list coord) :
  0 < w → 0 < h → 0 ≤ n → Forall (in_bounds w h) draws →
  init w h n draws = Ok g0 →
  Forall (in_bounds w h) moves → (play_fuel g0 ≤ fuel)%nat →
  Forall (λ c, in_bounds w h c ∧ is_bomb_at (play_all fuel g0 moves) c = false)
         (_known_cells_coordinates (play_all fuel g0 moves)) ∧
  Z.of_nat (length (_known_cells_coordinates (play_all fuel g0 moves)))
    ≤ _number_of_cells_to_uncover (play_all fuel g0 moves) ∧
  _number_of_cells_to_uncover (play_all fuel g0 moves) = w * h - n.
Proof.
  intros Hw Hh Hn Hd Hinit Hmoves Hfuel.
  pose proof (init_board_ok w h n draws g0 Hw Hh Hn Hd Hinit) as Hok0.
  destruct (init_inv w h n draws g0 Hw Hh Hn Hd Hinit) as (Ew & Eh & _ & Eu & _).
  assert (board_ok (play_all fuel g0 moves)) as Hok.
  { apply play_all_board_ok; [done| |done]. by rewrite Ew, Eh. }
  pose proof (known_count_le _ Hok) as Hle.
  destruct (play_all_frame fuel moves g0) as (known & Hframe).
  rewrite Hframe in *. split; [|split; [done|exact Eu]].
  destruct Hok as (_ & _ & _ & (_ & Hsafe & _)).
  cbn [set_known width height] in Hsafe. by rewrite Ew, Eh in Hsafe.
Qed.

Lemma C10_witness :
  Forall (λ c, in_bounds 4 4 c ∧
               is_bomb_at (play_all 200 game_4x4 [(1, 3); (3, 3); (0, 0)]) c = false)
         (_known_cells_coordinates (play_all 200 game_4x4 [(1, 3); (3, 3); (0, 0)])) ∧
  Z.of_nat (length (_known_cells_coordinates (play_all 200 game_4x4 [(1, 3); (3, 3); (0, 0)])))
    ≤ _number_of_cells_to_uncover (play_all 200 game_4x4 [(1, 3); (3, 3); (0, 0)]) ∧
  _number_of_cells_to_uncover (play_all 200 game_4x4 [(1, 3); (3, 3); (0, 0)]) = 4 * 4 - 2.
Proof.
  apply (C10_known_cells_are_safe 4 4 2 [(3, 3); (3, 3); (0, 3)] game_4x4 200
           [(1, 3); (3, 3); (0, 0)]).
  - lia.
  - lia.
  - lia.
  - apply (bool_decide_unpack _). vm_compute. exact I.
  - reflexivity.
  - apply (bool_decide_unpack _). vm_compute. exact I.
  - vm_compute. lia.
Defined.

(** ** C5: the hints *)

(** C5.  On every board built by the constructor from valid parameters,
    every cell of the board carries as its hint the number of cells of the
    board adjacent to it, by a side or a corner, that hold a bomb.  Calls of
    [play] never change a cell, so the hints stay what the constructor made
    them. *)
Theorem C5_hint_counts_neighbour_bombs (w h n : Z) (draws : list (Z * Z))
    (g : MinesweeperGame) (x y : Z) :
  0 < w → 0 < h → 0 ≤ n < w * h → Forall (in_bounds w h) draws →
  init w h n draws = Ok g →
  in_bounds w h (x, y) →
  ∃ k, cell g x y = Ok k ∧
       CELL.HINT k = neighbour_bombs g (x, y) ∧
       ∀ fuel moves,
         cell (play_all fuel g moves) x y = Ok k ∧
         neighbour_bombs (play_all fuel g moves) (x, y) = neighbour_bombs g (x, y).
Proof.
  intros Hw Hh [Hn _] Hd Hinit Hxy.
  pose proof (init_board_ok w h n draws g Hw Hh Hn Hd Hinit) as (Hg & Hhints & _).
  destruct (init_inv w h n draws g Hw Hh Hn Hd Hinit) as (Ew & Eh & _).
  rewrite <- Ew, <- Eh in Hxy.
  destruct (grid_ok_cell g (x, y) Hg Hxy) as (k & Hcell & _ & Hkh & _).
  simpl in Hcell. exists k. split; [done|]. split.
  - rewrite <- Hkh. unfold hints_ok in Hhints. rewrite Forall_forall in Hhints.
    by apply Hhints, elem_of_all_coordinates.
  - intros fuel moves. destruct (play_all_frame fuel moves g) as (known & ->). done.
Qed.

Lemma C5_witness :
  ∃ k, cell game_4x4 1 2 = Ok k ∧
       CELL.HINT k = neighbour_bombs game_4x4 (1, 2) ∧
       ∀ fuel moves,
         cell (play_all fuel game_4x4 moves) 1 2 = Ok k ∧
         neighbour_bombs (play_all fuel game_4x4 moves) (1, 2) =
           neighbour_bombs game_4x4 (1, 2).
Proof.
  apply (C5_hint_counts_neighbour_bombs 4 4 2 [(3, 3); (3, 3); (0, 3)] game_4x4 1 2).
  - lia.
  - lia.
  - lia.
  - apply (bool_decide_unpack _). vm_compute. exact I.
  - reflexivity.
  - vm_compute. repeat split; discriminate.
Defined.

Example game_4x4_hint : hint_at game_4x4 (1, 2) = 1 ∧ neighbour_bombs game_4x4 (1, 2) = 1.
Proof. split; reflexivity. Qed.

(** ** C4: after the end of the game *)

(** [_update_game] sets [game_over] as soon as [play] reports a lost or a won game. *)
Lemma update_game_sets_game_over (fuel : nat) (ui : MinesweeperGameUI) (x y : Z) :
  game_over ui = false →
  (play fuel (game ui) x y).1 = Ok Lost ∨ (play fuel (game ui) x y).1 = Ok Won →
  game_over (_update_game fuel ui x y).2 = true.
Proof.
  intros Hgo Hr. unfold _update_game. rewrite Hgo.
  destruct (play fuel (game ui) x y) as [r g]. simpl in Hr.
  by destruct Hr as [-> | ->].
Qed.

(** C4 (as amended).  Once the flag [game_over] of the user interface is
    set, a call of [_update_game] with any coordinates does nothing: it
    does not call [play], and the game object, with its known cells, and
    the flag stay as they are; so does any sequence of such calls, and the
    flag is never reset. *)
Theorem C4_game_over_is_terminal (fuel : nat) (ui : MinesweeperGameUI)
    (x y : Z) (clicks : list coord) :
  game_over ui = true →
  _update_game fuel ui x y = (Ok tt, ui) ∧
  update_all fuel ui clicks = ui.
Proof.
  intros Hgo.
  assert (∀ a b, _update_game fuel ui a b = (Ok tt, ui)) as Hstep.
  { intros a b. unfold _update_game. by rewrite Hgo. }
  split; [done|]. unfold update_all.
  induction clicks as [|m clicks IH]; [done|]. simpl. by rewrite Hstep.
Qed.

Lemma C4_witness :
  _update_game 10 {| game := game_4x1; game_over := true |} 1 0
    = (Ok tt, {| game := game_4x1; game_over := true |}) ∧
  update_all 10 {| game := game_4x1; game_over := true |} [(1, 0); (0, 0); (7, 7)]
    = {| game := game_4x1; game_over := true |}.
Proof.
  apply (C4_game_over_is_terminal 10 {| game := game_4x1; game_over := true |} 1 0
           [(1, 0); (0, 0); (7, 7)]).
  reflexivity.
Defined.

(** C4 as stated fails for [play]: on the board of four cells in a row with
    a bomb at each end, a click on the bomb [(0, 0)] loses the game, and a
    later call of [play] on the cell [(1, 0)] of the board still uncovers
    that cell and returns its hint, not [False]. *)
Lemma C4_counterexample :
  play 10 game_4x1 0 0 = (Ok Lost, game_4x1) ∧
  in_bounds (width game_4x1) (height game_4x1) (1, 0) ∧
  play 10 (play 10 game_4x1 0 0).2 1 0
    = (Ok (Hints [((1, 0), 1)]), set_known game_4x1 [(1, 0)]) ∧
  _known_cells_coordinates (play 10 (play 10 game_4x1 0 0).2 1 0).2
    ≠ _known_cells_coordinates (play 10 game_4x1 0 0).2.
Proof.
  split; [reflexivity|]. split; [vm_compute; repeat split; discriminate|].
  split; [reflexivity|]. vm_compute. discriminate.
Qed.

(** ** C7: coordinates outside of the grid *)

Lemma cell_outside (g : MinesweeperGame) (x y : Z) :
  grid_ok g →
  x < - width g ∨ width g ≤ x ∨ y < - height g ∨ height g ≤ y →
  cell g x y = Raise IndexError.
Proof.
  intros (Hw & Hh & Hrows & Hcols & _) Hout.
  unfold cell, grid_cell, getitem.
  destruct (py_index (length (_grid g)) y) as [j|] eqn:Hy; [|done].
  destruct (_grid g !! j) as [row|] eqn:Hrow; [|done]. cbn.
  assert (length row = Z.to_nat (width g)) as Hlen.
  { rewrite Forall_forall in Hcols. apply Hcols. by eapply list_elem_of_lookup_2. }
  assert (x < - width g ∨ width g ≤ x) as Hx.
  { destruct Hout as [?|[?|Hout]]; [by left|by right|exfalso].
    rewrite py_index_outside in Hy; [done|]. rewrite Hrows. lia. }
  rewrite py_index_outside; [done|]. rewrite Hlen. lia.
Qed.

(** C7 (as amended).  On every board that satisfies the invariant, [play]
    with [x >= width], [x < -width], [y >= height] or [y < -height] raises
    [IndexError] and leaves the game object, with its known cells, as it
    was. *)
Theorem C7_play_outside_raises_IndexError (fuel : nat) (g : MinesweeperGame) (x y : Z) :
  board_ok g →
  x < - width g ∨ width g ≤ x ∨ y < - height g ∨ height g ≤ y →
  play fuel g x y = (Raise IndexError, g) ∧
  _known_cells_coordinates (play fuel g x y).2 = _known_cells_coordinates g.
Proof.
  intros (Hg & _) Hout.
  assert (play fuel g x y = (Raise IndexError, g)) as Hplay; [|by rewrite Hplay].
  unfold play. by rewrite (cell_outside g x y Hg Hout).
Qed.

Lemma C7_witness :
  play 10 game_2x1 2 0 = (Raise IndexError, game_2x1) ∧
  _known_cells_coordinates (play 10 game_2x1 2 0).2 = _known_cells_coordinates game_2x1.
Proof.
  apply (C7_play_outside_raises_IndexError 10 game_2x1 2 0).
  - apply (bool_decide_unpack _). vm_compute. exact I.
  - vm_compute. right. left. discriminate.
Defined.

(** C7 as stated fails for negative coordinates: on the board of two cells
    in a row with its bomb on the left, [play(-1, 0)] reads the last cell
    of the row, uncovers it and wins the game. *)
Lemma C7_counterexample :
  ¬ in_bounds (width game_2x1) (height game_2x1) (-1, 0) ∧
  play 10 game_2x1 (-1) 0 = (Ok Won, set_known game_2x1 [(1, 0)]) ∧
  _known_cells_coordinates (play 10 game_2x1 (-1) 0).2 ≠ _known_cells_coordinates game_2x1.
Proof.
  split; [|split; [reflexivity|vm_compute; discriminate]].
  intros [[H _] _]. vm_compute in H. by apply H.
Qed.

(** ** C8: invalid parameters *)

Lemma getitem_not_assertion {A : Type} (l : list A) (i : Z) :
  getitem l i ≠ Raise AssertionError.
Proof. unfold getitem. repeat case_match; done. Qed.

Lemma grid_cell_not_assertion (grid : grid_t) (x y : Z) :
  grid_cell grid x y ≠ Raise AssertionError.
Proof.
  unfold grid_cell. destruct (getitem grid y) eqn:E; cbn; try done.
  - apply getitem_not_assertion.
  - intros [= ->]. by apply getitem_not_assertion in E.
Qed.

Lemma grid_update_not_assertion (grid : grid_t) (x y : Z) (f : CELL.t → CELL.t) :
  grid_update grid x y f ≠ Raise AssertionError.
Proof. unfold grid_update. repeat case_match; done. Qed.

Lemma place_bombs_not_assertion (w h n : Z) (draws : list (Z * Z)) :
  ∀ grid bombs, place_bombs w h n draws grid bombs ≠ Raise AssertionError.
Proof.
  induction draws as [|[dx dy] draws IH]; intros grid bombs; simpl;
    destruct (negb _); try done; unfold randint.
  - repeat case_match; done.
  - destruct (w - 1 <? 0); cbn; [done|].
    destruct (h - 1 <? 0); cbn; [done|].
    destruct (grid_cell grid dx dy) as [c| |] eqn:Hc; cbn; [| |done].
    + destruct (CELL.IS_BOMB c); [apply IH|].
      destruct (grid_update grid dx dy _) as [g'| |] eqn:Hu; cbn; [apply IH| |done].
      intros [= ->]. by apply grid_update_not_assertion in Hu.
    + intros [= ->]. by apply grid_cell_not_assertion in Hc.
Qed.

Lemma incr_hints_not_assertion (cs : list coord) :
  ∀ grid, incr_hints grid cs ≠ Raise AssertionError.
Proof.
  induction cs as [|[x y] cs IH]; intros grid; simpl; [done|].
  destruct (grid_update grid x y _) as [g'| |] eqn:Hu; cbn; [apply IH| |done].
  intros [= ->]. by apply grid_update_not_assertion in Hu.
Qed.

Lemma set_hints_not_assertion (w h : Z) (bombs : list coord) :
  ∀ grid, set_hints w h grid bombs ≠ Raise AssertionError.
Proof.
  induction bombs as [|[x y] bombs IH]; intros grid; simpl; [done|].
  destruct (incr_hints grid _) as [g'| |] eqn:Hi; cbn; [apply IH| |done].
  intros [= ->]. by apply incr_hints_not_assertion in Hi.
Qed.

(** The assertion is the only check of the parameters: it fails exactly
    when no cell would be left to uncover. *)
Lemma init_assertion_iff (w h n : Z) (draws : list (Z * Z)) :
  init w h n draws = Raise AssertionError ↔ w * h - n ≤ 0.
Proof.
  unfold init. destruct (Z.ltb_spec 0 (w * h - n)) as [Hpos|Hneg]; simpl.
  2:{ split; [lia|done]. }
  split; [|lia]. intros Hfail. exfalso.
  destruct (place_bombs w h n draws (make_grid w h) []) as [[g1 bs]| |] eqn:Hp;
    cbn in Hfail; try done.
  - destruct (set_hints w h g1 bs) as [g2| |] eqn:Hs; cbn in Hfail; try done.
    injection Hfail as ->. by apply set_hints_not_assertion in Hs.
  - injection Hfail as ->. by apply place_bombs_not_assertion in Hp.
Qed.

(** C8 (as amended).  For all parameters with
    [number_of_bombs >= width * height], whatever the random draws, the
    constructor fails on its assertion and builds no board. *)
Theorem C8_init_rejects_too_many_bombs (w h n : Z) (draws : list (Z * Z)) :
  w * h ≤ n →
  init w h n draws = Raise AssertionError ∧
  ¬ ∃ g, init w h n draws = Ok g.
Proof.
  intros Hn. assert (init w h n draws = Raise AssertionError) as ->.
  { apply init_assertion_iff. lia. }
  split; [done|]. by intros [g ?].
Qed.

Lemma C8_witness :
  init 0 3 0 [(0, 0)] = Raise AssertionError ∧
  ¬ ∃ g, init 0 3 0 [(0, 0)] = Ok g.
Proof. apply (C8_init_rejects_too_many_bombs 0 3 0 [(0, 0)]). lia. Defined.

(** C8 as stated fails: a negative number of bombs, or a negative width
    with a negative height, passes the assertion and a board is built. *)
Lemma C8_counterexample :
  (¬ (0 ≤ -1 < 1 * 1) ∧ ∃ g, init 1 1 (-1) [] = Ok g) ∧
  (¬ (-1 > 0) ∧ ∃ g, init (-1) (-1) 0 [] = Ok g).
Proof.
  split; (split; [lia|]); eexists; vm_compute; reflexivity.
Qed.

(** Mine counts that leave no safe cell are rejected. *)
Example init_too_many_bombs : init 2 2 4 [] = Raise AssertionError.
Proof. reflexivity. Qed.

(** * Further properties of the code *)

(** ** The constructor: the bombs *)

Lemma place_bombs_from_draws (w h n : Z) (draws : list (Z * Z)) :
  ∀ (grid : grid_t) (bombs : list coord) (grid' : grid_t) (bombs' : list coord),
    place_bombs w h n draws grid bombs = Ok (grid', bombs') →
    ∀ b, b ∈ bombs' → b ∈ bombs ∨ b ∈ draws.
Proof.
  induction draws as [|[dx dy] draws IH]; intros grid bombs grid' bombs'; simpl.
  - destruct (negb _); [by intros [= <- <-]; auto|].
    unfold randint. repeat case_match; done.
  - destruct (negb _); [by intros [= <- <-]; auto|].
    unfold randint.
    destruct (w - 1 <? 0); cbn; [done|]. destruct (h - 1 <? 0); cbn; [done|].
    destruct (grid_cell grid dx dy) as [c| |]; cbn; try done.
    destruct (CELL.IS_BOMB c).
    + intros Hp b Hb. destruct (IH _ _ _ _ Hp b Hb) as [?|?]; [by left|].
      right. by apply list_elem_of_further.
    + destruct (grid_update grid dx dy _) as [g2| |]; cbn; try done.
      intros Hp b Hb. destruct (IH _ _ _ _ Hp b Hb) as [Hm|?].
      * apply elem_of_app in Hm as [? | ->%list_elem_of_singleton]; [by left|].
        right. apply list_elem_of_here.
      * right. by apply list_elem_of_further.
Qed.

(** X1.  The constructor called with valid parameters flags exactly
    [number_of_bombs] cells of the board as bombs: [bombs] lists them once
    each, they are cells that were drawn, and no other cell is flagged. *)
Theorem X1_init_places_the_bombs (w h n : Z) (draws : list (Z * Z)) (g : MinesweeperGame) :
  0 < w → 0 < h → 0 ≤ n → Forall (in_bounds w h) draws →
  init w h n draws = Ok g →
  Z.of_nat (length (bombs g)) = n ∧
  NoDup (bombs g) ∧
  (∀ b, b ∈ bombs g → b ∈ draws) ∧
  (∀ c, in_bounds w h c → is_bomb_at g c = true ↔ c ∈ bombs g) ∧
  Z.of_nat (length (filter (λ c, is_bomb_at g c = true) (all_coordinates w h))) = n.
Proof.
  intros Hw Hh Hn Hd Hinit.
  destruct (init_inv w h n draws g Hw Hh Hn Hd Hinit)
    as (Ew & Eh & _ & _ & El & _ & Hnd & Hin & Hcells).
  assert (Hiff : ∀ c, in_bounds w h c → is_bomb_at g c = true ↔ c ∈ bombs g).
  { intros [x y] Hxy. unfold is_bomb_at. simpl.
    by destruct (Hcells x y Hxy) as (c & -> & _ & Hiff & _). }
  split; [done|]. split; [done|]. split; [|split; [done|]].
  - intros b Hb. unfold init in Hinit.
    destruct (negb _); [done|].
    destruct (place_bombs w h n draws (make_grid w h) []) as [[g1 bs]| |] eqn:Hp;
      cbn in Hinit; try done.
    destruct (set_hints w h g1 bs); cbn in Hinit; try done.
    injection Hinit as <-. simpl in Hb.
    destruct (place_bombs_from_draws _ _ _ _ _ _ _ _ Hp b Hb) as [?%elem_of_nil|?]; done.
  - rewrite <- El. f_equal. apply Permutation_length, NoDup_Permutation.
    + apply NoDup_filter, NoDup_all_coordinates.
    + done.
    + intros c. rewrite list_elem_of_filter, elem_of_all_coordinates.
      rewrite Forall_forall in Hin. split.
      * intros [Hb Hc]. by apply Hiff.
      * intros Hc. split; [apply Hiff|]; auto.
Qed.

Lemma X1_witness :
  Z.of_nat (length (bombs game_4x4)) = 2 ∧
  NoDup (bombs game_4x4) ∧
  (∀ b, b ∈ bombs game_4x4 → b ∈ [(3, 3); (3, 3); (0, 3)]) ∧
  (∀ c, in_bounds 4 4 c → is_bomb_at game_4x4 c = true ↔ c ∈ bombs game_4x4) ∧
  Z.of_nat (length (filter (λ c, is_bomb_at game_4x4 c = true) (all_coordinates 4 4))) = 2.
Proof.
  apply (X1_init_places_the_bombs 4 4 2 [(3, 3); (3, 3); (0, 3)] game_4x4).
  - lia.
  - lia.
  - lia.
  - apply (bool_decide_unpack _). vm_compute. exact I.
  - reflexivity.
Defined.

(** X2.  With a positive number of bombs that passes the assertion, a width
    or height that is not positive makes the constructor fail with the
    [ValueError] of [randint], before any cell is drawn. *)
Theorem X2_init_empty_range_raises_ValueError (w h n : Z) (draws : list (Z * Z)) :
  0 < n → n < w * h → w ≤ 0 ∨ h ≤ 0 →
  init w h n draws = Raise ValueError.
Proof.
  intros Hn Hlt Hdim. assert (w ≤ 0) as Hw by nia.
  unfold init. destruct (Z.ltb_spec 0 (w * h - n)); simpl; [|lia].
  assert (place_bombs w h n draws (make_grid w h) [] = Raise ValueError) as ->; [|done].
  destruct draws as [|[dx dy] draws]; cbn [place_bombs length];
    change (Z.of_nat 0) with 0;
    (destruct (Z.ltb_spec 0 n); cbn [negb]; [|lia]);
    unfold randint; (destruct (Z.ltb_spec (w - 1) 0); [reflexivity|lia]).
Qed.

Lemma X2_witness : init (-2) (-3) 2 [(0, 0)] = Raise ValueError.
Proof.
  apply (X2_init_empty_range_raises_ValueError (-2) (-3) 2 [(0, 0)]); lia.
Defined.

(** ** The cells around a cell *)

(** X3.  On a board that satisfies the invariant, [_neighbour_cells(x, y)]
    yields, for any [x] and [y], once each, the cells of the board whose
    coordinates are adjacent to [(x, y)], and no others: never the cell
    [(x, y)] itself, never a cell reached through a negative index, and at
    most eight cells. *)
Theorem X3_neighbour_cells_are_the_adjacent_cells (g : MinesweeperGame) (x y : Z) :
  board_ok g →
  ∃ ns, _neighbour_cells g x y = Ok ns ∧
        NoDup (CELL.COORDINATES <$> ns) ∧
        (∀ k, k ∈ ns ↔ cell_of g k ∧ adjacent (x, y) (CELL.COORDINATES k)) ∧
        (length ns ≤ 8)%nat.
Proof.
  intros (Hg & _).
  destruct (neighbour_cells_spec g x y Hg) as (ns & Hns & Hco & Hcells).
  exists ns. split; [done|]. rewrite Forall_forall in Hcells.
  split; [|split].
  - rewrite Hco. apply NoDup_neighbour_coordinates.
  - intros k. split.
    + intros Hk. split; [by apply Hcells|].
      assert (CELL.COORDINATES k ∈ CELL.COORDINATES <$> ns) as Hm
        by (by apply list_elem_of_fmap_2).
      rewrite Hco in Hm. by apply elem_of_neighbour_coordinates in Hm as [_ ?].
    + intros [[Hin Hcell] Hadj].
      assert (CELL.COORDINATES k ∈ CELL.COORDINATES <$> ns) as Hm.
      { rewrite Hco. by apply elem_of_neighbour_coordinates. }
      apply list_elem_of_fmap in Hm as (k' & Hkk & Hk').
      destruct (Hcells k' Hk') as [_ Hcell']. rewrite <- Hkk in Hcell'.
      rewrite Hcell in Hcell'. by injection Hcell' as ->.
  - rewrite <- (length_fmap CELL.COORDINATES), Hco.
    apply length_neighbour_coordinates.
Qed.

Lemma X3_witness :
  ∃ ns, _neighbour_cells game_4x4 (-1) 0 = Ok ns ∧
        NoDup (CELL.COORDINATES <$> ns) ∧
        (∀ k, k ∈ ns ↔ cell_of game_4x4 k ∧ adjacent (-1, 0) (CELL.COORDINATES k)) ∧
        (length ns ≤ 8)%nat.
Proof.
  apply (X3_neighbour_cells_are_the_adjacent_cells game_4x4 (-1) 0).
  apply (bool_decide_unpack _). vm_compute. exact I.
Defined.





(** X5.  Being a neighbour is symmetric on the board: [_neighbour_cells]
    visits the cell [b] from the cell [a] exactly when it visits [a] from
    [b]. *)
Theorem X5_neighbours_symmetric (w h : Z) (a b : coord) :
  in_bounds w h a → in_bounds w h b →
  b ∈ neighbour_coordinates w h a.1 a.2 ↔ a ∈ neighbour_coordinates w h b.1 b.2.
Proof.
  intros Ha Hb. destruct a as [ax ay], b as [bx by_]. simpl.
  rewrite !elem_of_neighbour_coordinates.
  split; intros [_ Hadj]; (split; [done|by apply adjacent_sym]).
Qed.

Lemma X5_witness :
  (1, 1) ∈ neighbour_coordinates 3 3 (0, 2).1 (0, 2).2 ↔
  (0, 2) ∈ neighbour_coordinates 3 3 (1, 1).1 (1, 1).2.
Proof.
  apply (X5_neighbours_symmetric 3 3 (0, 2) (1, 1)); vm_compute; repeat split; discriminate.
Defined.

(** ** The hints *)

Lemma hint_bounds (g : MinesweeperGame) (c : coord) :
  board_ok g → in_bounds (width g) (height g) c →
  0 ≤ hint_at g c ≤ Z.of_nat (length (neighbour_coordinates (width g) (height g) c.1 c.2)) ∧
  hint_at g c ≤ 8.
Proof.
  intros (_ & Hh & _) Hc.
  assert (hint_at g c ≤
          Z.of_nat (length (neighbour_coordinates (width g) (height g) c.1 c.2))) as Hle.
  { unfold hints_ok in Hh. rewrite Forall_forall in Hh.
    rewrite (Hh c) by (by apply elem_of_all_coordinates).
    unfold neighbour_bombs. apply inj_le.
    etrans; [|apply (length_filter (λ d, is_bomb_at g d = true))].
    apply Nat.eq_le_incl, Permutation_length, NoDup_Permutation.
    - apply NoDup_filter, NoDup_all_coordinates.
    - apply NoDup_filter, NoDup_neighbour_coordinates.
    - intros d. rewrite !list_elem_of_filter, elem_of_all_coordinates.
      destruct c as [x y]. simpl. rewrite elem_of_neighbour_coordinates. tauto. }
  pose proof (length_neighbour_coordinates (width g) (height g) c.1 c.2).
  pose proof (hint_nonneg g c Hh Hc). lia.
Qed.

(** X6.  On a board that satisfies the invariant, the hint of a cell of the
    board is at least 0, at most the number of cells around it, and so at
    most 8. *)
Theorem X6_hint_bounds (g : MinesweeperGame) (c : coord) :
  board_ok g → in_bounds (width g) (height g) c →
  0 ≤ hint_at g c ≤ Z.of_nat (length (neighbour_coordinates (width g) (height g) c.1 c.2)) ∧
  hint_at g c ≤ 8.
Proof. apply hint_bounds. Qed.

Lemma X6_witness :
  0 ≤ hint_at game_4x4 (1, 2)
    ≤ Z.of_nat (length (neighbour_coordinates (width game_4x4) (height game_4x4)
                          (1, 2).1 (1, 2).2)) ∧
  hint_at game_4x4 (1, 2) ≤ 8.
Proof.
  apply (X6_hint_bounds game_4x4 (1, 2)).
  - apply (bool_decide_unpack _). vm_compute. exact I.
  - vm_compute. repeat split; discriminate.
Defined.

(** ** Calls of [play] with any arguments *)

Lemma play_loop_appends (g : MinesweeperGame) :
  ∀ (fuel : nat) stack hints known,
    ∃ new, (play_loop fuel g stack hints known).2 = known ++ new.
Proof.
  induction fuel as [|fuel IH]; intros stack hints known; simpl.
  { exists []. by rewrite app_nil_r. }
  destruct (pop stack) as [[c rest]|]; [|exists []; by rewrite app_nil_r].
  destruct (decide (CELL.COORDINATES c ∈ known)); [apply IH|].
  assert (∀ st, ∃ new,
    (play_loop fuel g st (hints ++ [(CELL.COORDINATES c, CELL.HINT c)])
       (known ++ [CELL.COORDINATES c])).2 = known ++ new) as Hrec.
  { intros st. destruct (IH st (hints ++ [(CELL.COORDINATES c, CELL.HINT c)])
                            (known ++ [CELL.COORDINATES c])) as (new & ->).
    exists (CELL.COORDINATES c :: new). by rewrite <- app_assoc. }
  destruct (CELL.HINT c =? 0); [|apply Hrec].
  destruct (_neighbour_cells g _ _); [apply Hrec|by eexists|by eexists].
Qed.

Lemma play_appends (fuel : nat) (g : MinesweeperGame) (x y : Z) :
  ∃ new, (play fuel g x y).2 = set_known g (_known_cells_coordinates g ++ new).
Proof.
  unfold play.
  destruct (cell g x y) as [k| |];
    try (exists []; by rewrite app_nil_r, set_known_same).
  destruct (CELL.IS_BOMB k); [exists []; by rewrite app_nil_r, set_known_same|].
  destruct (play_loop_appends g fuel [k] [] (_known_cells_coordinates g)) as (new & Hnew).
  exists new. destruct (play_loop _ _ _ _ _) as [[hints| |] known]; simpl in Hnew; subst known;
    try done.
  by destruct (_ =? _).
Qed.

(** X7.  Whatever its arguments and its outcome (a result, an exception, no
    fuel left), a call of [play] changes nothing of the game object but the
    list of known cells, and it only appends to that list: cells once known
    stay known, in the same order. *)
Theorem X7_play_only_appends_known_cells (fuel : nat) (g : MinesweeperGame) (x y : Z) :
  ∃ new, (play fuel g x y).2 = set_known g (_known_cells_coordinates g ++ new).
Proof. apply play_appends. Qed.

(** ** Negative coordinates *)

Lemma py_index_back (len : nat) (i : Z) :
  0 ≤ i < Z.of_nat len → py_index len (i - Z.of_nat len) = Some (Z.to_nat i).
Proof.
  intros Hi. unfold py_index.
  destruct (Z.leb_spec 0 (i - Z.of_nat len)), (Z.ltb_spec (i - Z.of_nat len) (Z.of_nat len)),
    (Z.ltb_spec (i - Z.of_nat len) 0), (Z.leb_spec (- Z.of_nat len) (i - Z.of_nat len));
    simpl; try lia.
  all: f_equal; lia.
Qed.

Lemma cell_wraps (g : MinesweeperGame) (x y : Z) :
  grid_ok g → in_bounds (width g) (height g) (x, y) →
  cell g (x - width g) y = cell g x y ∧
  cell g x (y - height g) = cell g x y ∧
  cell g (x - width g) (y - height g) = cell g x y.
Proof.
  intros Hg Hxy.
  destruct (grid_cell_lookup _ _ _ x y (grid_ok_shape g Hg) Hxy)
    as (row & c & Hrow & Hc & Hlen & Hcell).
  destruct Hg as (Hw & Hh & Hrows & _). destruct Hxy as [Hx Hy]. simpl in Hx, Hy.
  assert (∀ x' y', py_index (length (_grid g)) y' = Some (Z.to_nat y) →
                   py_index (length row) x' = Some (Z.to_nat x) →
                   cell g x' y' = Ok c) as Hget.
  { intros x' y' Hy' Hx'. unfold cell, grid_cell, getitem.
    rewrite Hy', Hrow. cbn. by rewrite Hx', Hc. }
  assert (py_index (length (_grid g)) y = Some (Z.to_nat y)) as Hy0
    by (apply py_index_front; lia).
  assert (py_index (length row) x = Some (Z.to_nat x)) as Hx0
    by (apply py_index_front; lia).
  assert (py_index (length (_grid g)) (y - height g) = Some (Z.to_nat y)) as Hy1.
  { replace (height g) with (Z.of_nat (length (_grid g))) by lia.
    apply py_index_back. lia. }
  assert (py_index (length row) (x - width g) = Some (Z.to_nat x)) as Hx1.
  { replace (width g) with (Z.of_nat (length row)) by lia.
    apply py_index_back. lia. }
  unfold cell in Hcell |- *. rewrite Hcell. unfold cell in Hget. auto.
Qed.

(** X8.  On a board that satisfies the invariant, negative coordinates count
    from the far side, as Python's list indexing does: for a cell [(x, y)]
    of the board, [play] called with [x - width] for [x], with [y - height]
    for [y], or with both, does exactly what [play(x, y)] does. *)
Theorem X8_play_negative_coordinates_wrap (fuel : nat) (g : MinesweeperGame) (x y : Z) :
  board_ok g → in_bounds (width g) (height g) (x, y) →
  play fuel g (x - width g) y = play fuel g x y ∧
  play fuel g x (y - height g) = play fuel g x y ∧
  play fuel g (x - width g) (y - height g) = play fuel g x y.
Proof.
  intros (Hg & _) Hxy. destruct (cell_wraps g x y Hg Hxy) as (H1 & H2 & H3).
  unfold play. by rewrite H1, H2, H3.
Qed.

Lemma X8_witness :
  play 200 game_4x4 (1 - width game_4x4) 2 = play 200 game_4x4 1 2 ∧
  play 200 game_4x4 1 (2 - height game_4x4) = play 200 game_4x4 1 2 ∧
  play 200 game_4x4 (1 - width game_4x4) (2 - height game_4x4) = play 200 game_4x4 1 2.
Proof.
  apply (X8_play_negative_coordinates_wrap 200 game_4x4 1 2).
  - apply (bool_decide_unpack _). vm_compute. exact I.
  - vm_compute. repeat split; discriminate.
Defined.

(** ** Won games *)

Lemma known_and_bombs (g : MinesweeperGame) :
  board_ok g →
  NoDup (_known_cells_coordinates g ++ bombs g) ∧
  (∀ c, c ∈ _known_cells_coordinates g ++ bombs g → in_bounds (width g) (height g) c) ∧
  (∀ c, in_bounds (width g) (height g) c → is_bomb_at g c = true ↔ c ∈ bombs g).
Proof.
  intros (_ & _ & (Hbnd & Hbin & Hbiff & _) & (Hknd & Hksafe & _)).
  rewrite Forall_forall in Hbin, Hbiff, Hksafe.
  assert (Hiff : ∀ c, in_bounds (width g) (height g) c →
                      is_bomb_at g c = true ↔ c ∈ bombs g).
  { intros c Hc. by apply Hbiff, elem_of_all_coordinates. }
  split; [|split; [|done]].
  - apply NoDup_app. split; [done|]. split; [|done].
    intros c Hc Hb. destruct (Hksafe c Hc) as [Hin Hsafe].
    apply (Hiff c Hin) in Hb. congruence.
  - intros c [Hc|Hc]%elem_of_app; [by apply Hksafe|by apply Hbin].
Qed.

Lemma won_iff_all_safe_known (g : MinesweeperGame) :
  board_ok g →
  is_won g ↔
  ∀ c, in_bounds (width g) (height g) c → is_bomb_at g c = false →
       c ∈ _known_cells_coordinates g.
Proof.
  intros Hok. destruct (known_and_bombs g Hok) as (Hnd & Hin & Hiff).
  pose proof Hok as ((Hw & Hh & _) & _ & (_ & _ & _ & Hun) & _).
  pose proof (length_all_coordinates (width g) (height g) ltac:(lia) ltac:(lia)) as Hall.
  assert (_known_cells_coordinates g ++ bombs g ⊆+ all_coordinates (width g) (height g))
    as Hsub.
  { apply NoDup_submseteq; [done|]. intros c Hc. by apply elem_of_all_coordinates, Hin. }
  unfold is_won. split.
  - intros Hwon c Hc Hsafe.
    assert (_known_cells_coordinates g ++ bombs g ≡ₚ all_coordinates (width g) (height g))
      as Hperm.
    { apply submseteq_length_Permutation; [done|]. rewrite length_app. lia. }
    assert (c ∈ _known_cells_coordinates g ++ bombs g) as [?|Hb]%elem_of_app; [|done|].
    { rewrite Hperm. by apply elem_of_all_coordinates. }
    apply (Hiff c Hc) in Hb. congruence.
  - intros Hall_known.
    assert (all_coordinates (width g) (height g) ⊆+ _known_cells_coordinates g ++ bombs g)
      as Hsup.
    { apply NoDup_submseteq; [apply NoDup_all_coordinates|].
      intros c Hc%elem_of_all_coordinates. apply elem_of_app.
      destruct (is_bomb_at g c) eqn:Hb; [right; by apply Hiff|left; by apply Hall_known]. }
    apply submseteq_length in Hsub, Hsup. rewrite length_app in Hsub, Hsup. lia.
Qed.

(** X9.  On a board that satisfies the invariant, the test of [play] for a
    won game (as many known cells as cells to uncover) holds exactly when
    every cell of the board without a bomb is known. *)
Theorem X9_won_iff_every_safe_cell_known (g : MinesweeperGame) :
  board_ok g →
  Z.of_nat (length (_known_cells_coordinates g)) = _number_of_cells_to_uncover g ↔
  ∀ c, in_bounds (width g) (height g) c → is_bomb_at g c = false →
       c ∈ _known_cells_coordinates g.
Proof. apply won_iff_all_safe_known. Qed.

Lemma X9_witness :
  Z.of_nat (length (_known_cells_coordinates (play 20 game_1x2 0 0).2))
    = _number_of_cells_to_uncover (play 20 game_1x2 0 0).2 ↔
  ∀ c, in_bounds (width (play 20 game_1x2 0 0).2) (height (play 20 game_1x2 0 0).2) c →
       is_bomb_at (play 20 game_1x2 0 0).2 c = false →
       c ∈ _known_cells_coordinates (play 20 game_1x2 0 0).2.
Proof.
  apply (X9_won_iff_every_safe_cell_known (play 20 game_1x2 0 0).2).
  apply (bool_decide_unpack _). vm_compute. exact I.
Defined.

Lemma play_known (fuel : nat) (g : MinesweeperGame) (x y : Z) :
  board_ok g → in_bounds (width g) (height g) (x, y) →
  (x, y) ∈ _known_cells_coordinates g → (2 ≤ fuel)%nat →
  play fuel g x y = (Ok (if decide (is_won g) then Won else Hints []), g).
Proof.
  intros (Hg & _ & _ & (_ & Hksafe & _)) Hxy Hknown Hfuel.
  rewrite Forall_forall in Hksafe. destruct (Hksafe _ Hknown) as [_ Hsafe].
  destruct (grid_ok_cell g (x, y) Hg Hxy) as (k & Hcell & Hkc & _ & Hkb & _).
  simpl in Hcell. unfold play. rewrite Hcell, <- Hkb, Hsafe.
  destruct fuel as [|[|fuel]]; [lia|lia|].
  cbn [play_loop pop rev app]. rewrite Hkc, decide_True by done.
  cbn [play_loop pop rev]. rewrite set_known_same. unfold is_won.
  destruct (Z.eqb_spec (Z.of_nat (length (_known_cells_coordinates g)))
                       (_number_of_cells_to_uncover g));
    [by rewrite decide_True|by rewrite decide_False].
Qed.

(** X10.  [play] keeps no record of a won game, yet a won game stays won:
    on a board that satisfies the invariant and is won, a call of [play] on
    a cell of the board changes nothing and returns [True] again, unless the
    cell holds a bomb: then it returns [False]. *)
Theorem X10_play_after_win (fuel : nat) (g : MinesweeperGame) (x y : Z) :
  board_ok g → is_won g → in_bounds (width g) (height g) (x, y) → (2 ≤ fuel)%nat →
  play fuel g x y = (Ok (if is_bomb_at g (x, y) then Lost else Won), g).
Proof.
  intros Hok Hwon Hxy Hfuel. destruct (is_bomb_at g (x, y)) eqn:Hb.
  - by apply play_bomb.
  - rewrite (play_known fuel g x y Hok Hxy); [by rewrite decide_True|..|done].
    by apply (won_iff_all_safe_known g Hok).
Qed.

Lemma X10_witness :
  play 20 (play 20 game_1x2 0 0).2 0 1
  = (Ok (if is_bomb_at (play 20 game_1x2 0 0).2 (0, 1) then Lost else Won),
     (play 20 game_1x2 0 0).2).
Proof.
  apply (X10_play_after_win 20 (play 20 game_1x2 0 0).2 0 1).
  - apply (bool_decide_unpack _). vm_compute. exact I.
  - reflexivity.
  - vm_compute. repeat split; discriminate.
  - lia.
Defined.

(** ** Winning *)

Lemma play_makes_known (fuel : nat) (g : MinesweeperGame) (x y : Z) :
  board_ok g → in_bounds (width g) (height g) (x, y) → is_bomb_at g (x, y) = false →
  (play_fuel g ≤ fuel)%nat →
  (x, y) ∈ _known_cells_coordinates (play fuel g x y).2.
Proof.
  intros Hok Hxy Hsafe Hfuel.
  destruct (play_spec g x y fuel Hok Hxy Hsafe Hfuel) as (new & -> & _ & _ & Hset & _).
  cbn [snd set_known _known_cells_coordinates]. apply elem_of_app.
  destruct (decide ((x, y) ∈ _known_cells_coordinates g)); [by left|right].
  apply Hset. split; [done|by left].
Qed.

Lemma play_all_known_mono (fuel : nat) (moves : list coord) :
  ∀ g c, c ∈ _known_cells_coordinates g →
         c ∈ _known_cells_coordinates (play_all fuel g moves).
Proof.
  induction moves as [|m moves IH]; intros g c Hc; [done|].
  simpl. apply IH.
  destruct (play_appends fuel g m.1 m.2) as (new & ->).
  apply elem_of_app. by left.
Qed.

Lemma play_all_covers (fuel : nat) (moves : list coord) :
  ∀ g, board_ok g → Forall (in_bounds (width g) (height g)) moves →
       (play_fuel g ≤ fuel)%nat →
       ∀ c, c ∈ moves → is_bomb_at g c = false →
            c ∈ _known_cells_coordinates (play_all fuel g moves).
Proof.
  induction moves as [|[x y] moves IH]; intros g Hok Hin Hfuel c Hc Hsafe;
    [by apply elem_of_nil in Hc|].
  apply Forall_cons in Hin as [Hxy Hin].
  pose proof (play_board_ok fuel g x y Hok Hxy Hfuel) as Hok1.
  destruct (play_appends fuel g x y) as (new & Hframe).
  apply elem_of_cons in Hc as [->|Hc].
  - simpl. apply play_all_known_mono. by apply play_makes_known.
  - simpl. apply IH; rewrite ?Hframe in *; done.
Qed.

(** X11.  The game can always be won: on a board that satisfies the
    invariant, after calls of [play] on cells of the board that include
    every cell without a bomb, in any order and whatever else is clicked,
    the number of known cells is the number of cells to uncover. *)
Theorem X11_clicking_every_safe_cell_wins (fuel : nat) (g : MinesweeperGame)
    (moves : list coord) :
  board_ok g → Forall (in_bounds (width g) (height g)) moves →
  (∀ c, in_bounds (width g) (height g) c → is_bomb_at g c = false → c ∈ moves) →
  (play_fuel g ≤ fuel)%nat →
  is_won (play_all fuel g moves).
Proof.
  intros Hok Hin Hall Hfuel.
  pose proof (play_all_board_ok fuel moves g Hok Hin Hfuel) as Hok'.
  apply (won_iff_all_safe_known _ Hok').
  pose proof (play_all_covers fuel moves g Hok Hin Hfuel) as Hcov.
  destruct (play_all_frame fuel moves g) as (known & Hframe).
  rewrite Hframe in *. intros c Hc Hsafe. apply Hcov; [by apply Hall|done].
Qed.

Lemma X11_witness :
  is_won (play_all 40 game_4x1 [(0, 0); (2, 0); (3, 0); (1, 0)]).
Proof.
  apply (X11_clicking_every_safe_cell_wins 40 game_4x1 [(0, 0); (2, 0); (3, 0); (1, 0)]).
  - apply (bool_decide_unpack _). vm_compute. exact I.
  - apply (bool_decide_unpack _). vm_compute. exact I.
  - intros [x y] [Hx Hy] _. unfold game_4x1 in Hx, Hy. simpl in Hx, Hy.
    assert (y = 0) as -> by lia.
    assert (x = 0 ∨ x = 1 ∨ x = 2 ∨ x = 3) as Hcases by lia.
    destruct Hcases as [-> | [-> | [-> | ->]]];
      apply (bool_decide_unpack _); vm_compute; exact I.
  - vm_compute. lia.
Defined.

(** ** A click on a numbered cell *)

(** X12.  On a board that satisfies the invariant, [play] on an unknown
    cell of the board that holds no bomb and has a hint other than 0
    uncovers that cell alone: it becomes the last known cell, and the
    result is the list of its one hint, or [True] if that cell was the last
    one to uncover. *)
Theorem X12_play_numbered_cell (fuel : nat) (g : MinesweeperGame) (x y : Z) :
  board_ok g → in_bounds (width g) (height g) (x, y) →
  is_bomb_at g (x, y) = false → (x, y) ∉ _known_cells_coordinates g →
  hint_at g (x, y) ≠ 0 → (2 ≤ fuel)%nat →
  play fuel g x y =
    (Ok (if decide (is_won (set_known g (_known_cells_coordinates g ++ [(x, y)])))
         then Won else Hints [((x, y), hint_at g (x, y))]),
     set_known g (_known_cells_coordinates g ++ [(x, y)])).
Proof.
  intros (Hg & _) Hxy Hsafe Hnew Hhint Hfuel.
  destruct (grid_ok_cell g (x, y) Hg Hxy) as (k & Hcell & Hkc & Hkh & Hkb & _).
  simpl in Hcell. unfold play. rewrite Hcell, <- Hkb, Hsafe.
  destruct fuel as [|[|fuel]]; [lia|lia|].
  cbn [play_loop pop rev app]. rewrite Hkc, decide_False by done.
  rewrite <- Hkh. destruct (Z.eqb_spec (hint_at g (x, y)) 0) as [|_]; [done|].
  cbn [play_loop pop rev app]. unfold is_won.
  cbn [set_known _known_cells_coordinates _number_of_cells_to_uncover].
  destruct (Z.eqb_spec (Z.of_nat (length (_known_cells_coordinates g ++ [(x, y)])))
                       (_number_of_cells_to_uncover g));
    [by rewrite decide_True|by rewrite decide_False].
Qed.

Lemma X12_witness :
  play 10 game_4x4 1 2 =
    (Ok (if decide (is_won (set_known game_4x4
                              (_known_cells_coordinates game_4x4 ++ [(1, 2)])))
         then Won else Hints [((1, 2), hint_at game_4x4 (1, 2))]),
     set_known game_4x4 (_known_cells_coordinates game_4x4 ++ [(1, 2)])).
Proof.
  apply (X12_play_numbered_cell 10 game_4x4 1 2).
  - apply (bool_decide_unpack _). vm_compute. exact I.
  - vm_compute. repeat split; discriminate.
  - reflexivity.
  - vm_compute. apply not_elem_of_nil.
  - vm_compute. discriminate.
  - lia.
Defined.

(** ** The sum of the hints *)

(** Counting the pairs of a relation by rows or by columns. *)
Lemma double_counting {A B : Type} (R : A → B → Prop) `{∀ x y, Decision (R x y)}
    (l : list A) (k : list B) :
  sum_list_with (λ x, length (filter (λ y, R x y) k)) l =
  sum_list_with (λ y, length (filter (λ x, R x y) l)) k.
Proof.
  induction l as [|a l IH]; simpl.
  - induction k as [|b k IHk]; simpl; [done|]. by rewrite <- IHk.
  - rewrite IH. clear IH. induction k as [|b k IHk]; [done|].
    cbn [sum_list_with]. rewrite <- IHk, !filter_cons.
    destruct (decide (R a b)); simpl; lia.
Qed.

(** X13.  On a board built by the constructor from valid parameters, the
    hints of all cells of the board, those with a bomb included, add up to
    the number of pairs of a bomb and a cell around it: every bomb has
    added one to each of the cells around it. *)
Theorem X13_sum_of_hints (w h n : Z) (draws : list (Z * Z)) (g : MinesweeperGame) :
  0 < w → 0 < h → 0 ≤ n → Forall (in_bounds w h) draws →
  init w h n draws = Ok g →
  foldr (λ c s, hint_at g c + s) 0 (all_coordinates w h) =
  Z.of_nat (sum_list_with (λ b, length (neighbour_coordinates w h b.1 b.2)) (bombs g)).
Proof.
  intros Hw Hh Hn Hd Hinit.
  destruct (init_inv w h n draws g Hw Hh Hn Hd Hinit)
    as (_ & _ & _ & _ & _ & _ & _ & _ & Hcells).
  assert (∀ l, Forall (in_bounds w h) l →
    foldr (λ c s, hint_at g c + s) 0 l =
    Z.of_nat (sum_list_with
      (λ c, length (filter (λ b, c ∈ neighbour_coordinates w h b.1 b.2) (bombs g))) l))
    as Hsum.
  { induction l as [|[x y] l IH]; intros Hl; [done|].
    apply Forall_cons in Hl as [Hc Hl]. simpl. rewrite (IH Hl).
    unfold hint_at. simpl. destruct (Hcells x y Hc) as (k & -> & _ & _ & ->). lia. }
  rewrite Hsum by (apply Forall_forall; intros c; apply elem_of_all_coordinates).
  f_equal. rewrite (double_counting (λ c b, c ∈ neighbour_coordinates w h b.1 b.2)).
  clear Hsum Hcells.
  induction (bombs g) as [|b bs IH]; [done|]. simpl. rewrite IH. f_equal.
  apply Permutation_length, NoDup_Permutation.
  - apply NoDup_filter, NoDup_all_coordinates.
  - apply NoDup_neighbour_coordinates.
  - intros c. rewrite list_elem_of_filter, elem_of_all_coordinates.
    rewrite elem_of_neighbour_coordinates. tauto.
Qed.

Lemma X13_witness :
  foldr (λ c s, hint_at game_4x4 c + s) 0 (all_coordinates 4 4) =
  Z.of_nat (sum_list_with (λ b, length (neighbour_coordinates 4 4 b.1 b.2))
                          (bombs game_4x4)).
Proof.
  apply (X13_sum_of_hints 4 4 2 [(3, 3); (3, 3); (0, 3)] game_4x4).
  - lia.
  - lia.
  - lia.
  - apply (bool_decide_unpack _). vm_compute. exact I.
  - reflexivity.
Defined.

(** ** The constructor returns: rejection sampling *)

Lemma place_bombs_enough_draws (w h n : Z) (draws : list (Z * Z)) :
  0 < w → 0 < h →
  ∀ (grid : grid_t) (bombs : list coord),
    placed w h grid bombs →
    Forall (in_bounds w h) draws →
    n ≤ Z.of_nat (length bombs + length (remove_dups (filter (λ d, d ∉ bombs) draws))) →
    ∃ grid' bombs', place_bombs w h n draws grid bombs = Ok (grid', bombs').
Proof.
  intros Hw Hh.
  induction draws as [|[dx dy] draws IH]; intros grid bombs Hp Hin Hlen; simpl.
  - destruct (Z.ltb_spec (Z.of_nat (length bombs)) n); simpl; [simpl in Hlen; lia|].
    by eexists _, _.
  - destruct (Z.ltb_spec (Z.of_nat (length bombs)) n); simpl; [|by eexists _, _].
    apply Forall_cons in Hin as [Hxy Hin].
    rewrite !randint_Ok by (destruct Hxy; simpl in *; lia). cbn.
    pose proof Hp as (Hshape & Hcells & _).
    destruct (Hcells dx dy Hxy) as (c & Hc & _ & _ & Hiff).
    rewrite Hc. cbn.
    destruct (CELL.IS_BOMB c) eqn:Hb.
    + apply IH; try done.
      rewrite filter_cons, decide_False in Hlen; [done|].
      intros Hn. apply Hn. by apply Hiff.
    + destruct (grid_update_spec w h grid dx dy (CELL.set_IS_BOMB true) c Hshape Hxy Hc)
        as (g2 & Hupd & _ & _).
      rewrite Hupd. cbn. apply IH; try done; [by eapply placed_add|].
      assert (length (remove_dups (filter (λ d, d ∉ bombs) ((dx, dy) :: draws)))
              ≤ length ((dx, dy) ::
                        remove_dups (filter (λ d, d ∉ bombs ++ [(dx, dy)]) draws)))%nat
        as Hle.
      { apply submseteq_length, NoDup_submseteq; [apply NoDup_remove_dups|].
        intros z Hz. rewrite elem_of_remove_dups in Hz.
        apply list_elem_of_filter in Hz as [Hzb Hz].
        destruct (decide (z = (dx, dy))) as [->|Hne]; [apply list_elem_of_here|].
        apply list_elem_of_further. rewrite elem_of_remove_dups. apply list_elem_of_filter.
        apply elem_of_cons in Hz as [?|Hz]; [done|]. split; [|done].
        intros [?|?%list_elem_of_singleton]%elem_of_app; done. }
      rewrite length_app. simpl in *. lia.
Qed.

(** X14.  The constructor called with valid parameters returns a board as
    soon as the random draws have hit [number_of_bombs] different cells:
    draws that repeat a cell are skipped, and the loop ends. *)
Theorem X14_init_returns (w h n : Z) (draws : list (Z * Z)) :
  0 < w → 0 < h → 0 ≤ n < w * h → Forall (in_bounds w h) draws →
  n ≤ Z.of_nat (length (remove_dups draws)) →
  ∃ g, init w h n draws = Ok g.
Proof.
  intros Hw Hh Hn Hin Hdraws. unfold init.
  destruct (Z.ltb_spec 0 (w * h - n)); simpl; [|lia].
  destruct (place_bombs_enough_draws w h n draws Hw Hh (make_grid w h) [])
    as (g1 & bs & Hp); try done.
  - apply make_grid_placed.
  - simpl. etrans; [exact Hdraws|]. apply inj_le.
    apply submseteq_length, NoDup_submseteq; [apply NoDup_remove_dups|].
    intros z Hz. rewrite elem_of_remove_dups in Hz.
    rewrite elem_of_remove_dups. apply list_elem_of_filter. split; [apply not_elem_of_nil|done].
  - rewrite Hp. cbn.
    destruct (place_bombs_placed w h n _ _ _ _ _ (make_grid_placed w h) Hin ltac:(simpl; lia) Hp)
      as ((Hshape & _) & _).
    destruct (set_hints_spec w h bs g1 Hshape) as (g2 & -> & _). cbn. by eexists.
Qed.

Lemma X14_witness : ∃ g, init 4 4 2 [(3, 3); (3, 3); (0, 3)] = Ok g.
Proof.
  apply (X14_init_returns 4 4 2 [(3, 3); (3, 3); (0, 3)]).
  - lia.
  - lia.
  - lia.
  - apply (bool_decide_unpack _). vm_compute. exact I.
  - vm_compute. discriminate.
Defined.

(** ** Calls of [play] with any arguments: the known cells *)

Lemma cell_is_cell_of (g : MinesweeperGame) (x y : Z) (k : CELL.t) :
  grid_ok g → cell g x y = Ok k → cell_of g k.
Proof.
  intros Hg Hcell. pose proof Hg as (Hw & Hh & Hrows & Hcols & _).
  unfold cell, grid_cell, getitem in Hcell.
  destruct (py_index (length (_grid g)) y) as [j|] eqn:Hy; [|done].
  destruct (_grid g !! j) as [row|] eqn:Hrow; [|done]. cbn in Hcell.
  destruct (py_index (length row) x) as [i|] eqn:Hx; [|done].
  destruct (row !! i) as [k'|] eqn:Hk; [|done]. injection Hcell as ->.
  apply py_index_lt in Hy, Hx.
  assert (length row = Z.to_nat (width g)) as Hlen.
  { rewrite Forall_forall in Hcols. apply Hcols. by eapply list_elem_of_lookup_2. }
  assert (in_bounds (width g) (height g) (Z.of_nat i, Z.of_nat j)) as Hin.
  { split; simpl; lia. }
  destruct (grid_ok_cell g _ Hg Hin) as (k' & Hcell' & Hco & _ & _ & Hof).
  assert (k' = k) as ->; [|done].
  simpl in Hcell'. unfold cell, grid_cell, getitem in Hcell'.
  rewrite py_index_front, Nat2Z.id, Hrow in Hcell' by lia. cbn in Hcell'.
  rewrite py_index_front, Nat2Z.id, Hk in Hcell' by lia. by injection Hcell'.
Qed.

Lemma play_loop_on_board (g : MinesweeperGame) :
  grid_ok g →
  ∀ (fuel : nat) stack hints known,
    Forall (cell_of g) stack →
    NoDup known → Forall (in_bounds (width g) (height g)) known →
    NoDup (play_loop fuel g stack hints known).2 ∧
    Forall (in_bounds (width g) (height g)) (play_loop fuel g stack hints known).2.
Proof.
  intros Hg. induction fuel as [|fuel IH]; intros stack hints known Hstack Hnd Hin; [done|].
  simpl. destruct (pop stack) as [[c rest]|] eqn:Hpop; [|done].
  apply pop_Some in Hpop as ->.
  apply Forall_app in Hstack as [Hrest Hc]. rewrite Forall_singleton in Hc.
  destruct (decide (CELL.COORDINATES c ∈ known)) as [Hknown|Hnew]; [by apply IH|].
  assert (NoDup (known ++ [CELL.COORDINATES c])) as Hnd1.
  { apply NoDup_app. split; [done|]. split; [|apply NoDup_singleton].
    by intros z Hz ->%list_elem_of_singleton. }
  assert (Forall (in_bounds (width g) (height g)) (known ++ [CELL.COORDINATES c])) as Hin1.
  { apply Forall_app. split; [done|]. apply Forall_singleton, Hc. }
  destruct (CELL.HINT c =? 0); [|by apply IH].
  destruct (neighbour_cells_spec g (CELL.COORDINATES c).1 (CELL.COORDINATES c).2 Hg)
    as (ns & -> & _ & Hns).
  apply IH; try done. by apply Forall_app.
Qed.

Lemma play_on_board (fuel : nat) (g : MinesweeperGame) (x y : Z) :
  grid_ok g → known_on_board g →
  grid_ok (play fuel g x y).2 ∧ known_on_board (play fuel g x y).2.
Proof.
  intros Hg [Hnd Hin]. unfold play.
  destruct (cell g x y) as [k| |] eqn:Hcell; try done.
  destruct (CELL.IS_BOMB k); [done|].
  pose proof (play_loop_on_board g Hg fuel [k] [] (_known_cells_coordinates g)) as Hloop.
  destruct (play_loop _ _ _ _ _) as [r known]. simpl in Hloop.
  destruct Hloop as [Hnd' Hin']; try done.
  { apply Forall_singleton. by eapply cell_is_cell_of. }
  assert (grid_ok (set_known g known) ∧ known_on_board (set_known g known)) as Hres
    by done.
  destruct r as [hints| |]; try done. by destruct (_ =? _).
Qed.

Lemma play_all_on_board (fuel : nat) (moves : list coord) :
  ∀ g, grid_ok g → known_on_board g →
       grid_ok (play_all fuel g moves) ∧ known_on_board (play_all fuel g moves).
Proof.
  induction moves as [|m moves IH]; intros g Hg Hk; [done|].
  simpl. destruct (play_on_board fuel g m.1 m.2 Hg Hk). by apply IH.
Qed.

Lemma known_on_board_count (g : MinesweeperGame) :
  0 ≤ width g → 0 ≤ height g → known_on_board g →
  Z.of_nat (length (_known_cells_coordinates g)) ≤ width g * height g.
Proof.
  intros Hw Hh [Hnd Hin]. rewrite Forall_forall in Hin.
  rewrite <- length_all_coordinates by done. apply inj_le.
  apply submseteq_length, NoDup_submseteq; [done|].
  intros c Hc. by apply elem_of_all_coordinates, Hin.
Qed.

(** X15.  Whatever the coordinates and the fuel of its calls, and whether
    they return, raise or stop for lack of fuel, a sequence of calls of
    [play] on a well-formed grid never lists a cell twice among the known
    cells and never lists coordinates outside the board; so there are never
    more than [width * height] known cells. *)
Theorem X15_known_cells_stay_on_board (fuel : nat) (g : MinesweeperGame)
    (moves : list coord) :
  grid_ok g → known_on_board g →
  known_on_board (play_all fuel g moves) ∧
  Z.of_nat (length (_known_cells_coordinates (play_all fuel g moves)))
    ≤ width g * height g.
Proof.
  intros Hg Hk. destruct (play_all_on_board fuel moves g Hg Hk) as [Hg' Hk'].
  split; [done|].
  destruct (play_all_frame fuel moves g) as (known & Hframe).
  pose proof Hg as (Hw & Hh & _).
  rewrite Hframe in *.
  apply (known_on_board_count (set_known g known)); [simpl; lia|simpl; lia|done].
Qed.

Lemma X15_witness :
  known_on_board (play_all 3 game_4x4 [(0, 0); (-1, 2); (9, 9); (3, 3)]) ∧
  Z.of_nat (length (_known_cells_coordinates
                      (play_all 3 game_4x4 [(0, 0); (-1, 2); (9, 9); (3, 3)])))
    ≤ width game_4x4 * height game_4x4.
Proof.
  apply (X15_known_cells_stay_on_board 3 game_4x4 [(0, 0); (-1, 2); (9, 9); (3, 3)]).
  - apply (bool_decide_unpack _). vm_compute. exact I.
  - apply (bool_decide_unpack _). vm_compute. exact I.
Defined.

(** ** A negative number of bombs *)

Lemma play_won (fuel : nat) (g : MinesweeperGame) (x y : Z) :
  (play fuel g x y).1 = Ok Won → is_won (play fuel g x y).2.
Proof.
  unfold play. destruct (cell g x y) as [k| |]; try done.
  destruct (CELL.IS_BOMB k); [done|].
  destruct (play_loop _ _ _ _ _) as [[hints| |] known]; try done.
  unfold is_won. simpl.
  by destruct (Z.eqb_spec (Z.of_nat (length known)) (_number_of_cells_to_uncover g)).
Qed.

(** X16.  A negative [number_of_bombs] passes the assertion of the
    constructor: whatever the draws, a board without bombs is built whose
    number of cells to uncover exceeds the number of its cells, and no call
    of [play], after any calls before it, ever returns [True]: the game
    cannot be won. *)
Theorem X16_negative_bombs_cannot_be_won (w h n : Z) (draws : list (Z * Z)) :
  0 < w → 0 < h → n < 0 →
  ∃ g, init w h n draws = Ok g ∧
       bombs g = [] ∧
       _number_of_cells_to_uncover g > w * h ∧
       ∀ fuel moves x y, (play fuel (play_all fuel g moves) x y).1 ≠ Ok Won.
Proof.
  intros Hw Hh Hn.
  assert (init w h 0 [] = Ok {| width := w; height := h; _grid := make_grid w h;
            _known_cells_coordinates := []; _number_of_cells_to_uncover := w * h - 0;
            bombs := [] |}) as Hinit0.
  { unfold init. by destruct (Z.ltb_spec 0 (w * h - 0)); [|nia]. }
  pose proof (init_board_ok w h 0 [] _ Hw Hh ltac:(lia) ltac:(done) Hinit0) as (Hg0 & _).
  exists {| width := w; height := h; _grid := make_grid w h;
            _known_cells_coordinates := []; _number_of_cells_to_uncover := w * h - n;
            bombs := [] |}.
  split; [|split; [|split]].
  - unfold init. destruct (Z.ltb_spec 0 (w * h - n)); [|nia]. cbn [negb].
    assert (place_bombs w h n draws (make_grid w h) [] = Ok (make_grid w h, [])) as ->.
    { destruct draws as [|[dx dy] draws]; cbn [place_bombs length];
        change (Z.of_nat 0) with 0; (destruct (Z.ltb_spec 0 n); [lia|]); reflexivity. }
    reflexivity.
  - done.
  - simpl. lia.
  - intros fuel moves x y Hwon.
    set (g := {| width := w; height := h; _grid := make_grid w h;
                 _known_cells_coordinates := []; _number_of_cells_to_uncover := w * h - n;
                 bombs := [] |}) in *.
    assert (grid_ok g) as Hg by exact Hg0.
    assert (known_on_board g) as Hk by (split; [apply NoDup_nil_2|apply Forall_nil_2]).
    destruct (play_all_on_board fuel moves g Hg Hk) as [Hg1 Hk1].
    destruct (play_on_board fuel _ x y Hg1 Hk1) as [Hg2 Hk2].
    apply play_won in Hwon. unfold is_won in Hwon.
    destruct (play_all_frame fuel moves g) as (known1 & Hf1). rewrite Hf1 in *.
    destruct (play_frame fuel (set_known g known1) x y) as (known2 & Hf2).
    rewrite Hf2 in *.
    assert (Z.of_nat (length known2) ≤ w * h) as Hle.
    { apply (known_on_board_count (set_known (set_known g known1) known2));
        [simpl; lia|simpl; lia|done]. }
    simpl in Hwon. lia.
Qed.

Lemma X16_witness :
  ∃ g, init 1 1 (-1) [] = Ok g ∧
       bombs g = [] ∧
       _number_of_cells_to_uncover g > 1 * 1 ∧
       ∀ fuel moves x y, (play fuel (play_all fuel g moves) x y).1 ≠ Ok Won.
Proof. apply (X16_negative_bombs_cannot_be_won 1 1 (-1) []); lia. Defined.

(** ** The user interface: clicks after the end of the game *)




(** ** Printing the board *)

Example game_4x4_repr :
  __repr__ game_4x4 =
  String.concat (String newline "")
    ["- - - -"; "- - - -"; "1 1 1 1"; "X 1 1 X"]%string.
Proof. vm_compute. reflexivity. Qed.

Lemma string_length_app (s1 s2 : string) :
  String.length (s1 +:+ s2) = (String.length s1 + String.length s2)%nat.
Proof. induction s1 as [|a s1 IH]; simpl; [done|]. by rewrite IH. Qed.

(** Joining strings of one and the same length [m] with a separator of one
    character: the length of the result, where the characters of the pieces
    go, and where the separators go. *)
Lemma concat_uniform (sep : ascii) (m : nat) (ss : list string) :
  Forall (λ s, String.length s = m) ss →
  (ss ≠ [] → String.length (String.concat (String sep "") ss)
             = (length ss * (m + 1) - 1)%nat) ∧
  (∀ j i s, ss !! j = Some s → (i < m)%nat →
     String.get (j * (m + 1) + i) (String.concat (String sep "") ss) = String.get i s) ∧
  (∀ j, (j + 1 < length ss)%nat →
     String.get (j * (m + 1) + m) (String.concat (String sep "") ss) = Some sep).
Proof.
  induction ss as [|x xs IH]; intros Hall.
  { split; [done|]. split; [done|]. simpl. lia. }
  apply Forall_cons in Hall as [Hx Hxs]. destruct (IH Hxs) as (IHlen & IHget & IHsep).
  destruct xs as [|y ys].
  { split; [|split].
    - intros _. simpl. lia.
    - intros [|j] i s; [|done]. intros [= <-] _. done.
    - simpl. lia. }
  change (String.concat (String sep "") (x :: y :: ys))
    with (x +:+ String sep "" +:+ String.concat (String sep "") (y :: ys)).
  set (rest := String.concat (String sep "") (y :: ys)) in *.
  split; [|split].
  - intros _. rewrite !string_length_app, IHlen by done. simpl. lia.
  - intros [|j] i s Hs Hi.
    + injection Hs as <-. simpl. symmetry. apply append_correct1. lia.
    + simpl in Hs. rewrite <- (IHget j i s Hs Hi).
      rewrite (append_correct2 (String sep "") rest).
      rewrite (append_correct2 x (String sep "" +:+ rest)).
      f_equal. simpl. lia.
  - intros [|j] Hj.
    + replace (0 * (m + 1) + m)%nat with (0 + String.length x)%nat by lia.
      by rewrite <- (append_correct2 x (String sep "" +:+ rest) 0%nat).
    + rewrite <- (IHsep j) by (simpl in *; lia).
      rewrite (append_correct2 (String sep "") rest).
      rewrite (append_correct2 x (String sep "" +:+ rest)).
      f_equal. simpl. lia.
Qed.

Lemma repr_cell_char (g : MinesweeperGame) (k : CELL.t) :
  board_ok g → cell_of g k →
  String.length (repr_cell k) = 1%nat ∧
  String.get 0 (repr_cell k) =
    Some (if CELL.IS_BOMB k then "X"%char
          else if CELL.HINT k =? 0 then "-"%char
          else ascii_of_nat (48 + Z.to_nat (CELL.HINT k))).
Proof.
  intros Hok Hk. unfold repr_cell. destruct (CELL.IS_BOMB k); [done|].
  destruct (Z.eqb_spec (CELL.HINT k) 0); [done|].
  pose proof (hint_bounds g _ Hok (proj1 Hk)) as [[Hlo _] Hhi].
  rewrite (cell_of_hint g k Hk) in Hlo, Hhi.
  assert (CELL.HINT k = 1 ∨ CELL.HINT k = 2 ∨ CELL.HINT k = 3 ∨ CELL.HINT k = 4 ∨
          CELL.HINT k = 5 ∨ CELL.HINT k = 6 ∨ CELL.HINT k = 7 ∨ CELL.HINT k = 8)
    as Hcases by lia.
  destruct_or!; rewrite Hcases; done.
Qed.

Lemma repr_line (g : MinesweeperGame) (row : list CELL.t) (j : nat) :
  board_ok g → _grid g !! j = Some row →
  Forall (λ s, String.length s = 1%nat) (repr_cell <$> row) ∧
  length (repr_cell <$> row) = Z.to_nat (width g) ∧
  ∀ i k, row !! i = Some k → cell_of g k.
Proof.
  intros Hok Hrow. pose proof Hok as (Hg & _).
  pose proof Hg as (Hw & Hh & Hrows & Hcols & _).
  assert (length row = Z.to_nat (width g)) as Hlen.
  { rewrite Forall_forall in Hcols. apply Hcols. by eapply list_elem_of_lookup_2. }
  assert (∀ i k, row !! i = Some k → cell_of g k) as Hcells.
  { intros i k Hk. apply (cell_is_cell_of g (Z.of_nat i) (Z.of_nat j)); [done|].
    pose proof (lookup_lt_Some _ _ _ Hrow). pose proof (lookup_lt_Some _ _ _ Hk).
    unfold cell, grid_cell, getitem.
    rewrite py_index_front, Nat2Z.id, Hrow by lia. cbn.
    by rewrite py_index_front, Nat2Z.id, Hk by lia. }
  split; [|split; [by rewrite length_fmap|done]].
  apply Forall_fmap, Forall_lookup. intros i k Hk. simpl.
  by apply (repr_cell_char g k Hok), (Hcells i).
Qed.

(** X18.  On a board that satisfies the invariant, [__repr__] prints one
    character for each cell, [width] cells to a line with a space between two
    cells, [height] lines with a newline between two lines, and nothing
    after the last cell.  The cell [(x, y)] is at index [2 * width * y + 2 * x]:
    an [X] for a bomb, a [-] for the hint 0, the digit of the hint
    otherwise. *)
Theorem X18_repr_shows_every_cell (g : MinesweeperGame) (x y : Z) :
  board_ok g → in_bounds (width g) (height g) (x, y) →
  String.length (__repr__ g) = Z.to_nat (2 * width g * height g - 1) ∧
  String.get (Z.to_nat (2 * width g * y + 2 * x)) (__repr__ g) =
    Some (if is_bomb_at g (x, y) then "X"%char
          else if hint_at g (x, y) =? 0 then "-"%char
          else ascii_of_nat (48 + Z.to_nat (hint_at g (x, y)))) ∧
  (x < width g - 1 →
   String.get (Z.to_nat (2 * width g * y + 2 * x + 1)) (__repr__ g) = Some " "%char) ∧
  (x = width g - 1 → y < height g - 1 →
   String.get (Z.to_nat (2 * width g * y + 2 * x + 1)) (__repr__ g) = Some newline).
Proof.
  intros Hok Hxy. pose proof Hok as (Hg & _).
  pose proof Hg as (Hw & Hh & Hrows & _).
  destruct (grid_cell_lookup _ _ _ x y (grid_ok_shape g Hg) Hxy)
    as (row & k & Hrow & Hk & Hlen & Hcell).
  destruct Hxy as [Hx Hy]. simpl in Hx, Hy.
  set (wn := Z.to_nat (width g)) in *. set (hn := Z.to_nat (height g)) in *.
  set (xn := Z.to_nat x) in *. set (yn := Z.to_nat y) in *.
  set (lines := (λ line, String.concat " " (repr_cell <$> line)) <$> _grid g).
  assert (Forall (λ s, String.length s = (wn * 2 - 1)%nat) lines) as Hlines.
  { apply Forall_fmap, Forall_lookup. intros j r Hr. simpl.
    destruct (repr_line g r j Hok Hr) as (Hone & Hl & _).
    destruct (concat_uniform " " 1 _ Hone) as (Hlen1 & _).
    rewrite Hlen1, Hl; [fold wn; lia|].
    intros Hnil. rewrite Hnil in Hl. simpl in Hl. fold wn in Hl. lia. }
  destruct (concat_uniform newline (wn * 2 - 1) lines Hlines) as (Htot & Hget & Hsep).
  assert (length lines = hn) as Hnlines by (unfold lines; by rewrite length_fmap).
  assert (lines !! yn = Some (String.concat " " (repr_cell <$> row))) as Hline.
  { unfold lines. by rewrite list_lookup_fmap, Hrow. }
  destruct (repr_line g row yn Hok Hrow) as (Hone & Hl & Hcells).
  destruct (concat_uniform " " 1 _ Hone) as (_ & Hget1 & Hsep1).
  assert ((repr_cell <$> row) !! xn = Some (repr_cell k)) as Htok
    by (by rewrite list_lookup_fmap, Hk).
  assert (cell_of g k) as Hkof by (by apply (Hcells xn)).
  destruct (repr_cell_char g k Hok Hkof) as (_ & Hchar).
  assert (1 ≤ wn ∧ 1 ≤ hn ∧ xn < wn ∧ yn < hn)%nat as (Hw1 & Hh1 & Hx1 & Hy1)
    by (unfold wn, hn, xn, yn; lia).
  assert (Z.to_nat (2 * width g * y + 2 * x) = yn * (wn * 2 - 1 + 1) + (xn * (1 + 1) + 0))%nat
    as Hidx by (unfold wn, hn, xn, yn; nia).
  assert (Z.to_nat (2 * width g * y + 2 * x + 1)
          = yn * (wn * 2 - 1 + 1) + (xn * (1 + 1) + 1))%nat
    as Hidx1 by (unfold wn, hn, xn, yn; nia).
  unfold __repr__. fold lines. split; [|split; [|split]].
  - rewrite Htot by (intros Hnil; rewrite Hnil in Hnlines; simpl in Hnlines; lia).
    rewrite Hnlines. unfold wn, hn. nia.
  - rewrite Hidx, (Hget yn _ _ Hline) by lia.
    rewrite (Hget1 xn 0%nat _ Htok) by lia. rewrite Hchar.
    unfold is_bomb_at, hint_at. simpl. unfold cell. by rewrite Hcell.
  - intros Hlt. rewrite Hidx1, (Hget yn _ _ Hline) by (unfold wn, xn in *; lia).
    apply Hsep1. rewrite Hl. unfold wn, xn in *. lia.
  - intros Heq Hlt. rewrite Hidx1.
    replace (yn * (wn * 2 - 1 + 1) + (xn * (1 + 1) + 1))%nat
      with (yn * (wn * 2 - 1 + 1) + (wn * 2 - 1))%nat by (unfold wn, xn in *; lia).
    apply Hsep. rewrite Hnlines. unfold hn, yn in *. lia.
Qed.

Lemma X18_witness :
  String.length (__repr__ game_4x4)
    = Z.to_nat (2 * width game_4x4 * height game_4x4 - 1) ∧
  String.get (Z.to_nat (2 * width game_4x4 * 3 + 2 * 3)) (__repr__ game_4x4) =
    Some (if is_bomb_at game_4x4 (3, 3) then "X"%char
          else if hint_at game_4x4 (3, 3) =? 0 then "-"%char
          else ascii_of_nat (48 + Z.to_nat (hint_at game_4x4 (3, 3)))) ∧
  (3 < width game_4x4 - 1 →
   String.get (Z.to_nat (2 * width game_4x4 * 3 + 2 * 3 + 1)) (__repr__ game_4x4)
     = Some " "%char) ∧
  (3 = width game_4x4 - 1 → 3 < height game_4x4 - 1 →
   String.get (Z.to_nat (2 * width game_4x4 * 3 + 2 * 3 + 1)) (__repr__ game_4x4)
     = Some newline).
Proof.
  apply (X18_repr_shows_every_cell game_4x4 3 3).
  - apply (bool_decide_unpack _). vm_compute. exact I.
  - vm_compute. repeat split; discriminate.
Defined.

(** ** The buttons *)

Lemma button_at_lookup (w h : Z) (bs : buttons_t) (x y : Z) :
  buttons_shape w h bs → in_bounds w h (x, y) →
  ∃ row b, bs !! Z.to_nat y = Some row ∧ row !! Z.to_nat x = Some b ∧
           length row = Z.to_nat w ∧ button_at bs x y = Ok b.
Proof.
  intros [Hlen Hrows] [Hx Hy]. simpl in Hx, Hy.
  destruct (lookup_lt_is_Some_2 bs (Z.to_nat y)) as [row Hrow]; [lia|].
  assert (length row = Z.to_nat w) as Hw.
  { rewrite Forall_forall in Hrows. apply Hrows. by eapply list_elem_of_lookup_2. }
  destruct (lookup_lt_is_Some_2 row (Z.to_nat x)) as [b Hb]; [lia|].
  exists row, b. repeat split; try done.
  unfold button_at, getitem.
  rewrite py_index_front by lia. rewrite Hrow. cbn.
  rewrite py_index_front by lia. by rewrite Hb.
Qed.

Lemma button_update_spec (w h : Z) (bs : buttons_t) (x y : Z) (f : Button → Button) :
  buttons_shape w h bs → in_bounds w h (x, y) →
  ∃ b bs', button_at bs x y = Ok b ∧ button_update bs x y f = Ok bs' ∧
    buttons_shape w h bs' ∧
    ∀ x' y', in_bounds w h (x', y') →
      button_at bs' x' y' =
        if decide ((x', y') = (x, y)) then Ok (f b) else button_at bs x' y'.
Proof.
  intros Hshape Hin.
  destruct (button_at_lookup w h bs x y Hshape Hin) as (row & b & Hrow & Hb & Hw & Hat).
  destruct Hshape as [Hlen Hrows]. destruct Hin as [Hx Hy]. simpl in Hx, Hy.
  exists b, (<[Z.to_nat y := <[Z.to_nat x := f b]> row]> bs).
  split; [done|]. split; [|split].
  - unfold button_update. rewrite py_index_front by lia. rewrite Hrow.
    rewrite py_index_front by lia. by rewrite Hb.
  - split; [by rewrite length_insert|].
    apply Forall_insert; [done|]. by rewrite length_insert.
  - intros x' y' [Hx' Hy']. simpl in Hx', Hy'.
    unfold button_at, getitem. rewrite length_insert.
    rewrite !py_index_front by lia.
    destruct (decide (Z.to_nat y' = Z.to_nat y)) as [Ey|Ny].
    + rewrite Ey, list_lookup_insert_eq by lia. cbn.
      rewrite length_insert, Hrow. cbn.
      rewrite !py_index_front by lia.
      destruct (decide (Z.to_nat x' = Z.to_nat x)) as [Ex|Nx].
      * rewrite Ex, list_lookup_insert_eq by lia.
        rewrite decide_True; [done|]. f_equal; lia.
      * rewrite list_lookup_insert_ne by done.
        rewrite decide_False; [done|]. intros [=]. lia.
    + rewrite list_lookup_insert_ne by done.
      rewrite decide_False; [done|]. intros [=]. lia.
Qed.

Lemma make_buttons_shape (w h : Z) : buttons_shape w h (make_buttons w h).
Proof.
  unfold make_buttons. split.
  - by rewrite length_fmap, length_range.
  - apply Forall_fmap, Forall_forall. intros y _. simpl.
    by rewrite length_fmap, length_range.
Qed.

Lemma make_buttons_at (w h x y : Z) :
  in_bounds w h (x, y) → button_at (make_buttons w h) x y = Ok new_button.
Proof.
  intros [Hx Hy]. simpl in Hx, Hy.
  unfold button_at, getitem, make_buttons.
  rewrite length_fmap, length_range, py_index_front by lia.
  rewrite list_lookup_fmap, lookup_range by lia. cbn.
  rewrite length_fmap, length_range, py_index_front by lia.
  by rewrite list_lookup_fmap, lookup_range by lia.
Qed.

(** X19.  [MinesweeperGameUI.__init__] called with valid parameters builds a
    game that is not over, on a board that satisfies the invariant, with one
    button for each cell of the board: every button shows a blank, is up
    and has no style sheet. *)
Theorem X19_ui_init_builds_blank_buttons (w h n : Z) (draws : list (Z * Z)) (win : Window) :
  0 < w → 0 < h → 0 ≤ n → Forall (in_bounds w h) draws →
  ui_init w h n draws = Ok win →
  init w h n draws = Ok (game (ui win)) ∧
  board_ok (game (ui win)) ∧ buttons_ok win ∧
  game_over (ui win) = false ∧ win_pannel win = false ∧
  ∀ x y, in_bounds w h (x, y) → button_at (buttons win) x y = Ok new_button.
Proof.
  intros Hw Hh Hn Hd. unfold ui_init.
  destruct (init w h n draws) as [g| |] eqn:Hinit; cbn; try done.
  intros [= <-]. simpl.
  destruct (init_inv w h n draws g Hw Hh Hn Hd Hinit) as (Ew & Eh & _).
  split; [done|]. split; [by apply (init_board_ok w h n draws)|].
  split; [|split; [done|split; [done|]]].
  - unfold buttons_ok. simpl. rewrite Ew, Eh. apply make_buttons_shape.
  - intros x y Hxy. by apply make_buttons_at.
Qed.

Lemma X19_witness :
  init 4 4 2 [(3, 3); (3, 3); (0, 3)] = Ok (game (ui window_4x4)) ∧
  board_ok (game (ui window_4x4)) ∧ buttons_ok window_4x4 ∧
  game_over (ui window_4x4) = false ∧ win_pannel window_4x4 = false ∧
  ∀ x y, in_bounds 4 4 (x, y) → button_at (buttons window_4x4) x y = Ok new_button.
Proof.
  apply (X19_ui_init_builds_blank_buttons 4 4 2 [(3, 3); (3, 3); (0, 3)] window_4x4).
  - lia.
  - lia.
  - lia.
  - apply (bool_decide_unpack _). vm_compute. exact I.
  - reflexivity.
Defined.




Lemma strip_label (v : Z) :
  1 ≤ v ≤ 8 → strip (label v) ≠ flag_text ∧ strip (label v) ≠ [].
Proof.
  intros Hv.
  assert (v = 1 ∨ v = 2 ∨ v = 3 ∨ v = 4 ∨ v = 5 ∨ v = 6 ∨ v = 7 ∨ v = 8) as Hcases by lia.
  destruct Hcases as [-> | [-> | [-> | [-> | [-> | [-> | [-> | ->]]]]]]];
    by vm_compute.
Qed.

(** X20.  A right click ([_set_flag]) on a button whose text is empty or
    white space (a fresh button [' '], a revealed cell with hint 0, or a
    button whose flag was removed) puts the flag on it, and a second right
    click replaces the flag by the empty string.  Only the text of that
    button changes: the other buttons, the game and [game_over] stay as
    they were. *)
Theorem X20_set_flag_toggles (w : Window) (x y : Z) (b : Button) :
  buttons_ok w →
  in_bounds (width (game (ui w))) (height (game (ui w))) (x, y) →
  button_at (buttons w) x y = Ok b →
  strip (text b) = [] →
  ∃ w1 w2,
    _set_flag w x y = (Ok tt, w1) ∧
    button_at (buttons w1) x y = Ok (setText flag_text b) ∧
    _set_flag w1 x y = (Ok tt, w2) ∧
    button_at (buttons w2) x y = Ok (setText [] b) ∧
    ui w1 = ui w ∧ ui w2 = ui w ∧
    win_pannel w1 = win_pannel w ∧ win_pannel w2 = win_pannel w ∧
    ∀ x' y', in_bounds (width (game (ui w))) (height (game (ui w))) (x', y') →
      (x', y') ≠ (x, y) →
      button_at (buttons w1) x' y' = button_at (buttons w) x' y' ∧
      button_at (buttons w2) x' y' = button_at (buttons w) x' y'.
Proof.
  intros Hok Hxy Hb Hblank.
  destruct (button_update_spec _ _ (buttons w) x y (setText flag_text) Hok Hxy)
    as (b0 & bs1 & Hb0 & Hupd1 & Hshape1 & Hat1).
  rewrite Hb in Hb0. injection Hb0 as <-.
  destruct (button_update_spec _ _ bs1 x y (setText []) Hshape1 Hxy)
    as (b1 & bs2 & Hb1 & Hupd2 & Hshape2 & Hat2).
  pose proof (Hat1 x y Hxy) as Hflag. rewrite decide_True in Hflag by done.
  rewrite Hflag in Hb1. injection Hb1 as <-.
  pose proof (Hat2 x y Hxy) as Hnone. rewrite decide_True in Hnone by done.
  exists {| ui := ui w; buttons := bs1; win_pannel := win_pannel w |},
         {| ui := ui w; buttons := bs2; win_pannel := win_pannel w |}.
  split; [|split; [done|split; [|split; [done|]]]].
  - unfold _set_flag. rewrite Hb. cbn zeta. rewrite Hblank.
    rewrite decide_False by done. rewrite decide_True by done. by rewrite Hupd1.
  - unfold _set_flag. cbn [buttons ui win_pannel]. rewrite Hflag. cbn zeta.
    rewrite decide_True by done. by rewrite Hupd2.
  - repeat (split; [done|]).
    intros x' y' Hxy' Hne. cbn [buttons].
    pose proof (Hat1 x' y' Hxy') as H1. rewrite decide_False in H1 by done.
    pose proof (Hat2 x' y' Hxy') as H2. rewrite decide_False in H2 by done.
    split; [done|]. by rewrite H2.
Qed.

Lemma X20_witness :
  ∃ w1 w2,
    _set_flag window_4x4 1 2 = (Ok tt, w1) ∧
    button_at (buttons w1) 1 2 = Ok (setText flag_text new_button) ∧
    _set_flag w1 1 2 = (Ok tt, w2) ∧
    button_at (buttons w2) 1 2 = Ok (setText [] new_button) ∧
    ui w1 = ui window_4x4 ∧ ui w2 = ui window_4x4 ∧
    win_pannel w1 = win_pannel window_4x4 ∧ win_pannel w2 = win_pannel window_4x4 ∧
    ∀ x' y', in_bounds (width (game (ui window_4x4))) (height (game (ui window_4x4))) (x', y') →
      (x', y') ≠ (1, 2) →
      button_at (buttons w1) x' y' = button_at (buttons window_4x4) x' y' ∧
      button_at (buttons w2) x' y' = button_at (buttons window_4x4) x' y'.
Proof.
  apply (X20_set_flag_toggles window_4x4 1 2 new_button).
  - apply (bool_decide_unpack _). vm_compute. exact I.
  - apply (bool_decide_unpack _). vm_compute. exact I.
  - reflexivity.
  - reflexivity.
Defined.

(** X21.  A right click on a button that shows a hint from 1 to 8 or the
    bomb does nothing: [_set_flag] puts flags only on buttons whose text is
    blank, so a revealed numbered cell cannot be flagged. *)
Theorem X21_set_flag_keeps_labels (w : Window) (x y : Z) (b : Button) (v : Z) :
  button_at (buttons w) x y = Ok b →
  1 ≤ v ≤ 8 →
  text b = label v ∨ text b = bomb_text →
  _set_flag w x y = (Ok tt, w).
Proof.
  intros Hb Hv Htext. unfold _set_flag. rewrite Hb. cbn zeta.
  destruct Htext as [-> | ->].
  - destruct (strip_label v Hv) as [Hf He].
    rewrite decide_False by done. by rewrite decide_False by done.
  - rewrite decide_False by (by vm_compute). by rewrite decide_False by (by vm_compute).
Qed.

Lemma X21_witness :
  _set_flag window_4x4_hint 1 2 = (Ok tt, window_4x4_hint).
Proof.
  apply (X21_set_flag_keeps_labels window_4x4_hint 1 2
           (setDown true (setText (label 1) new_button)) 1).
  - reflexivity.
  - lia.
  - left. reflexivity.
Defined.





(** X24.  The buttons play no part in the game: the game object and
    [game_over] after [_update_game] are the same whatever the buttons
    show, a flag included, and [_set_flag] changes neither the game nor
    [game_over].  So a flag is only a mark: it does not stop a left click
    from playing the cell. *)
Theorem X24_buttons_do_not_influence_the_game (fuel : nat) (w : Window) (x y : Z) :
  ui (_update_game_buttons fuel w x y).2 = (_update_game fuel (ui w) x y).2 ∧
  ui (_set_flag w x y).2 = ui w.
Proof.
  split.
  - unfold _update_game_buttons, _update_game.
    destruct (game_over (ui w)); [done|].
    destruct (play fuel (game (ui w)) x y) as [[[| |hints]|e|] g]; try done.
    destruct (button_update (buttons w) x y (setStyleSheet "background-color:red"))
      as [bs|e|]; try done.
    cbn zeta. by destruct (show_bombs bs (bombs g)).1.
  - unfold _set_flag.
    destruct (button_at (buttons w) x y) as [b|e|]; try done. cbn zeta.
    destruct (decide (strip (text b) = flag_text)).
    + by destruct (button_update (buttons w) x y (setText [])).
    + destruct (decide (strip (text b) = [])); [|done].
      by destruct (button_update (buttons w) x y (setText flag_text)).
Qed.
